(** * ydl-react-hooks: [useScrollingNavigation] and [getScroll]

    A shallow embedding of [src/lib/hooks/useScrollingNavigation.tsx].

    - JavaScript numbers are IEEE 754 binary64 values: Rocq's primitive
      [float], with the kernel's own [+], [-], [*] and [<=].
    - The DOM is the part of it the hook reads: the elements of the
      document with their [id] attribute and the rectangle their
      [getBoundingClientRect()] returns at the moment of the call.
    - Everything the code does to the outside world ([scrollTo],
      [console.error], listeners attached and detached, state setters
      called) is recorded, in order, as a list of [Call]s.
    - React's lifecycle (state cells, effects with dependency lists, effect
      clean-ups, unmount) is written out as a transition system on the state
      of one hook instance together with the listener registry of the DOM. *)

From Stdlib Require Import List String Bool Arith PrimFloat FloatAxioms Lia.
Import ListNotations.

Set Warnings "-inexact-float".

Local Open Scope string_scope.
Local Open Scope list_scope.

(** ** Numbers and values *)

Definition number : Set := float.
Bind Scope float_scope with number.

(** [a >= b] on JavaScript numbers: false as soon as one side is NaN. *)
Definition geb (a b : number) : bool := PrimFloat.leb b a.

(** [Object.is] on numbers, the comparison React applies to dependencies. *)
Definition Object_is (a b : number) : bool := PrimFloat.Leibniz.eqb a b.

(** A value found in a property or an array slot that the code expects to be
    a number: the number, or [undefined] when the property is absent. *)
Inductive JSValue : Type :=
| undefined
| num (n : number).

(** [ToNumber]: [undefined] becomes NaN. *)
Definition toNumber (v : JSValue) : number :=
  match v with
  | undefined => nan
  | num n => n
  end.

Definition prop (p : option number) : JSValue :=
  match p with
  | Some n => num n
  | None => undefined
  end.

(** ** The enum [ScrollDirection] *)

Module ScrollDirection.

Inductive t : Set := x | y.

Definition eqb (a b : t) : bool :=
  match a, b with
  | x, x | y, y => true
  | _, _ => false
  end.

End ScrollDirection.

(** ** DOM data *)

Module DOMRect.

Record t : Type := mk { left : number; top : number; right : number; bottom : number }.

End DOMRect.

Module Element.

(** An element of the document: its [id] attribute and the result of
    [getBoundingClientRect()]. *)
Record t : Type := mk { id : string; getBoundingClientRect : DOMRect.t }.

End Element.

Definition Document := list Element.t.

(** [document.getElementById]: the first element in tree order whose ID is
    the argument.  An element with an empty [id] attribute has no ID, so the
    empty string finds nothing. *)
Definition getElementById (document : Document) (elementId : string) : option Element.t :=
  if elementId =? "" then None
  else find (fun e => Element.id e =? elementId) document.

(** An object as [getScroll] inspects it: the properties it reads may each
    be present or absent.  [ref] is the identity of the object. *)
Record JSObject : Type := mkObject {
  ref : nat;
  scrollX : option number;
  scrollY : option number;
  scrollLeft : option number;
  scrollTop : option number;
  getBoundingClientRect : option DOMRect.t
}.

(** The scroll containers of type [HTMLElement | Window]. *)
Inductive Container : Type :=
| Window (r : nat) (sx sy : number)
| HTMLElement (r : nat) (sl st : number) (rect : DOMRect.t).

Definition container_ref (c : Container) : nat :=
  match c with
  | Window r _ _ => r
  | HTMLElement r _ _ _ => r
  end.

(** The object behind a container: a [Window] has [scrollX] and [scrollY]
    and none of the element properties, an [HTMLElement] the converse. *)
Definition as_object (c : Container) : JSObject :=
  match c with
  | Window r sx sy => mkObject r (Some sx) (Some sy) None None None
  | HTMLElement r sl st rect => mkObject r None None (Some sl) (Some st) (Some rect)
  end.

Definition is_Window (o : JSObject) : Prop := exists r sx sy, o = as_object (Window r sx sy).
Definition is_HTMLElement (o : JSObject) : Prop :=
  exists r sl st rect, o = as_object (HTMLElement r sl st rect).

(** ** Observable calls *)

Record ScrollToOptions : Type := mkOptions {
  opt_left : number;
  opt_top : number;
  behavior : string
}.

Inductive Call : Type :=
| call_getScrollContainer
| console_error (message : string) (element : nat)
| scrollTo (container : nat) (options : ScrollToOptions)
| addEventListener (container : nat) (type : string) (listener : nat)
| removeEventListener (container : nat) (type : string) (listener : nat)
| setActiveElement (value : string)
| setTargetElement (value : string).

Definition is_scrollTo (c : Call) : bool :=
  match c with scrollTo _ _ => true | _ => false end.
Definition is_console_error (c : Call) : bool :=
  match c with console_error _ _ => true | _ => false end.

(** ** Effects: a trace of calls and a completion *)

Inductive Completion (A : Type) : Type :=
| Return (a : A)
| Throw (error : string).
Arguments Return {A} a.
Arguments Throw {A} error.

Definition Eff (A : Type) : Type := (list Call * Completion A)%type.

Definition ret {A} (a : A) : Eff A := ([], Return a).
Definition throw {A} (e : string) : Eff A := ([], Throw e).
Definition emit (c : Call) : Eff unit := ([c], Return tt).
Definition bind {A B} (m : Eff A) (k : A -> Eff B) : Eff B :=
  match m with
  | (t, Return a) => let '(t', r) := k a in (t ++ t', r)
  | (t, Throw e) => (t, Throw e)
  end.

Notation "x <- m ;; k" := (bind m (fun x => k))
  (at level 61, m at next level, right associativity).
Notation "m ;;; k" := (bind m (fun _ => k))
  (at level 61, right associativity).

Definition calls {A} (m : Eff A) : list Call := fst m.
Definition completion {A} (m : Eff A) : Completion A := snd m.

(** ** [getScroll] *)

Definition getScroll (element : JSObject) : Eff (list JSValue) :=
  match scrollX element with
  | Some sx => ret [num sx; prop (scrollY element); num 0; num 0]
  | None =>
    match scrollLeft element with
    | Some sl =>
      match getBoundingClientRect element with
      | Some rect =>
        ret [num sl; prop (scrollTop element);
             num (DOMRect.left rect); num (DOMRect.top rect)]
      | None => throw "TypeError: element.getBoundingClientRect is not a function"
      end
    | None =>
      emit (console_error "The element is neither of type Window or HTMLElement"
                          (ref element)) ;;;
      ret [num 0; num 0; num 0; num 0]
    end
  end.

(** ** The hook's environment and arguments *)

Record WindowDimensions : Type := mkDimensions { width : number; height : number }.

(** What the hook reads from outside at a given moment: the document, the
    value [getScrollContainer()] returns, and the value of
    [useWindowDimensions()]. *)
Record Env : Type := mkEnv {
  document : Document;
  container : option Container;
  windowDimensions : WindowDimensions
}.

(** The arguments of [useScrollingNavigation].  [getScrollContainer] is the
    identity of the function passed in (what a dependency list compares);
    what it returns is in [Env]. *)
Record Props : Type := mkProps {
  getScrollContainer : nat;
  elementsIds : list string;
  activeElementId : string;
  direction : ScrollDirection.t;
  margin : number
}.

(** The default values of the optional arguments (lines 24-26). *)
Definition arguments (getScrollContainer : nat) (elementsIds : list string)
    (activeElementId : option string) (direction : option ScrollDirection.t)
    (margin : option number) : Props :=
  mkProps getScrollContainer elementsIds
    (match activeElementId with Some a => a | None => "" end)
    (match direction with Some d => d | None => ScrollDirection.y end)
    (match margin with Some m => m | None => 0%float end).

(** ** [scroll] (lines 45-62) *)

Definition scroll (env : Env) (targetElement : string)
    (direction : ScrollDirection.t) (margin : number) : Eff unit :=
  if targetElement =? "" then ret tt
  else
    container <- (emit call_getScrollContainer ;;; ret (container env)) ;;
    let element := getElementById (document env) targetElement in
    match container, element with
    | Some container, Some element =>
      arr <- getScroll (as_object container) ;;
      let scrollToX := toNumber (nth 0 arr undefined) in
      let scrollToY := toNumber (nth 1 arr undefined) in
      let containerLeft := toNumber (nth 2 arr undefined) in
      let containerTop := toNumber (nth 3 arr undefined) in
      let rect := Element.getBoundingClientRect element in
      let scrollToX := (scrollToX + (DOMRect.left rect - containerLeft - margin))%float in
      let scrollToY := (scrollToY + (DOMRect.top rect - containerTop - margin))%float in
      emit (scrollTo (container_ref container)
              {| opt_left := if ScrollDirection.eqb direction ScrollDirection.x
                             then scrollToX else 0%float;
                 opt_top := if ScrollDirection.eqb direction ScrollDirection.y
                            then scrollToY else 0%float;
                 behavior := "smooth" |})
    | _, _ => ret tt
    end.

(** ** [determineActiveElement] (lines 75-95) *)

Fixpoint forEach {A : Type} (l : list A) (f : A -> Eff unit) : Eff unit :=
  match l with
  | [] => ret tt
  | a :: l' => f a ;;; forEach l' f
  end.

Definition determineActiveElement (document : Document) (elementsIds : list string)
    (direction : ScrollDirection.t) (windowDimensions : WindowDimensions) : Eff unit :=
  forEach elementsIds (fun elementId =>
    match getElementById document elementId with
    | Some section =>
      let rect := Element.getBoundingClientRect section in
      if ScrollDirection.eqb direction ScrollDirection.x then
        if PrimFloat.leb (DOMRect.left rect) (width windowDimensions * 0.1)%float
           && geb (DOMRect.right rect) (width windowDimensions * 0.9)%float
        then emit (setActiveElement elementId)
        else ret tt
      else
        if PrimFloat.leb (DOMRect.top rect) 120%float
           && geb (DOMRect.bottom rect) 120%float
        then emit (setActiveElement elementId)
        else ret tt
    | None => ret tt
    end).

(** React applies the queued updates of a state cell in order: the value
    after the handler is the argument of the last [setActiveElement] call,
    or the old value when there was none. *)
Fixpoint reduceActiveElement (activeElement : string) (queue : list Call) : string :=
  match queue with
  | [] => activeElement
  | setActiveElement v :: queue' => reduceActiveElement v queue'
  | _ :: queue' => reduceActiveElement activeElement queue'
  end.

(** The reported active element after one run of the scroll handler. *)
Definition afterScroll (document : Document) (elementsIds : list string)
    (direction : ScrollDirection.t) (windowDimensions : WindowDimensions)
    (activeElement : string) : string :=
  reduceActiveElement activeElement
    (calls (determineActiveElement document elementsIds direction windowDimensions)).

(** ** The hook instance and the DOM's listener registry *)

(** The closure [determineActiveElement] of one render: its identity and the
    values it captured. *)
Record Listener : Type := mkListener {
  lid : nat;
  l_elementsIds : list string;
  l_direction : ScrollDirection.t;
  l_windowDimensions : WindowDimensions
}.

(** The dependency list of the scrolling effect (line 65). *)
Record ScrollDeps : Type := mkScrollDeps {
  d_targetElement : string;
  d_getScrollContainer : nat;
  d_direction : ScrollDirection.t;
  d_margin : number
}.

Definition sameScrollDeps (a b : ScrollDeps) : bool :=
  (d_targetElement a =? d_targetElement b)
  && Nat.eqb (d_getScrollContainer a) (d_getScrollContainer b)
  && ScrollDirection.eqb (d_direction a) (d_direction b)
  && Object_is (d_margin a) (d_margin b).

Record Hook : Type := mkHook {
  mounted : bool;
  props : Props;
  (* the two state cells *)
  activeElement : string;
  targetElement : string;
  (* dependencies of the effects at their last run *)
  deps1 : string;
  deps2 : ScrollDeps;
  (* the clean-up returned by the listener effect: the container and the
     handler it closes over *)
  cleanup : option (nat * nat)
}.

(** One hook instance in its world: the ["scroll"] listeners registered on
    DOM objects, a supply of fresh closure identities, and the calls made so
    far. *)
Record State : Type := mkState {
  hook : Hook;
  listeners : list (nat * Listener);
  fresh : nat;
  trace : list Call
}.

Definition sameListener (container listener : nat) (e : nat * Listener) : bool :=
  Nat.eqb (fst e) container && Nat.eqb (lid (snd e)) listener.

(** [container.addEventListener("scroll", l)]: a handler already registered
    on the object is not registered twice. *)
Definition attach (container : nat) (l : Listener) (ls : list (nat * Listener))
    : list (nat * Listener) :=
  if existsb (sameListener container (lid l)) ls then ls else ls ++ [(container, l)].

(** [container.removeEventListener("scroll", l)]. *)
Definition detach (container listener : nat) (ls : list (nat * Listener))
    : list (nat * Listener) :=
  filter (fun e => negb (sameListener container listener e)) ls.

(** The handlers invoked when a ["scroll"] event reaches the listeners of
    [target], in order of registration. *)
Definition handlersOf (target : nat) (ls : list (nat * Listener)) : list Listener :=
  map snd (filter (fun e => Nat.eqb (fst e) target) ls).

(** The value the hook returns (line 103). *)
Definition returned (s : State) : string := activeElement (hook s).

(** Running the clean-up of the listener effect (lines 98-100). *)
Definition runCleanup (s : State) : State :=
  match cleanup (hook s) with
  | Some (c, l) =>
    let h := hook s in
    mkState (mkHook (mounted h) (props h) (activeElement h) (targetElement h)
                    (deps1 h) (deps2 h) None)
            (detach c l (listeners s)) (fresh s)
            (trace s ++ [removeEventListener c "scroll" l])
  | None => s
  end.

(** One render of [useScrollingNavigation] followed by its effects.  The
    effects see the values of this render ([targetElement] as it was when the
    render started); [first] is true for the render that mounts the hook,
    where every effect runs. *)
Definition useScrollingNavigation (first : bool) (env : Env) (s0 : State) : State :=
  let h := hook s0 in
  let p := props h in
  (* clean-up of the previous run of the listener effect, which has no
     dependency list and so runs again after every render *)
  let s := runCleanup s0 in
  (* lines 38-40 *)
  let run1 := first || negb (activeElementId p =? deps1 h) in
  let t1 := if run1 then [setTargetElement (activeElementId p)] else [] in
  (* lines 43-65 *)
  let now2 := mkScrollDeps (targetElement h) (getScrollContainer p) (direction p) (margin p) in
  let run2 := first || negb (sameScrollDeps now2 (deps2 h)) in
  let t2 := if run2 then calls (scroll env (targetElement h) (direction p) (margin p))
            else [] in
  (* lines 68-101 *)
  let '(cleanup3, listeners3, t3, fresh3) :=
    match container env with
    | None => (None, listeners s, [call_getScrollContainer], fresh s)
    | Some c =>
      let l := mkListener (fresh s) (elementsIds p) (direction p) (windowDimensions env) in
      (Some (container_ref c, fresh s),
       attach (container_ref c) l (listeners s),
       [call_getScrollContainer; addEventListener (container_ref c) "scroll" (fresh s)],
       S (fresh s))
    end in
  mkState
    (mkHook (mounted h) p (activeElement h)
            (if run1 then activeElementId p else targetElement h)
            (if run1 then activeElementId p else deps1 h)
            (if run2 then now2 else deps2 h)
            cleanup3)
    listeners3 fresh3 (trace s ++ t1 ++ t2 ++ t3).

(** Rendering until the state is stable: when an effect changed
    [targetElement], React renders once more. *)
Definition render (first : bool) (env : Env) (s : State) : State :=
  let s1 := useScrollingNavigation first env s in
  if targetElement (hook s1) =? targetElement (hook s) then s1
  else useScrollingNavigation false env s1.

(** Mounting: both state cells start at [activeElementId] (lines 29, 31). *)
Definition mount (env : Env) (p : Props) : State :=
  render true env
    (mkState (mkHook true p (activeElementId p) (activeElementId p)
                     (activeElementId p)
                     (mkScrollDeps (activeElementId p) (getScrollContainer p)
                                   (direction p) (margin p))
                     None)
             [] 0 []).

(** What can happen to a mounted hook: the parent renders it again (with the
    same or with other arguments, or because the window was resized), a
    ["scroll"] event reaches the listeners of some DOM object, the component is
    unmounted.  Each event comes with the environment of its moment.

    [ScrollEvent env target] names the object whose listeners are invoked,
    wherever the event was dispatched: a scroll of the viewport is dispatched
    on the document and bubbles to the window, and is then a [ScrollEvent] on
    the window. *)
Inductive Event : Type :=
| Rerender (env : Env) (p : Props)
| ScrollEvent (env : Env) (target : nat)
| Unmount.

(** The calls of all the handlers registered on the target of a scroll
    event, each run on the document as it is now. *)
Fixpoint dispatch (document : Document) (hs : list Listener) : list Call :=
  match hs with
  | [] => []
  | l :: hs' =>
    calls (determineActiveElement document (l_elementsIds l) (l_direction l)
                                  (l_windowDimensions l))
    ++ dispatch document hs'
  end.

Definition withProps (p : Props) (s : State) : State :=
  let h := hook s in
  mkState (mkHook (mounted h) p (activeElement h) (targetElement h)
                  (deps1 h) (deps2 h) (cleanup h))
          (listeners s) (fresh s) (trace s).

Definition withActiveElement (v : string) (t : list Call) (s : State) : State :=
  let h := hook s in
  mkState (mkHook (mounted h) (props h) v (targetElement h)
                  (deps1 h) (deps2 h) (cleanup h))
          (listeners s) (fresh s) (trace s ++ t).

Definition unmounted (s : State) : State :=
  let h := hook s in
  mkState (mkHook false (props h) (activeElement h) (targetElement h)
                  (deps1 h) (deps2 h) (cleanup h))
          (listeners s) (fresh s) (trace s).

(** One event.  The state updates queued by a scroll handler are applied
    together when the handler has returned and are followed by at most one
    render, as React does when it batches updates; a React root that renders
    after each [setActiveElement] call goes through more renders and ends with
    the same values in the state cells. *)
Definition step (e : Event) (s : State) : State :=
  match e with
  | Rerender env p =>
    if mounted (hook s) then render false env (withProps p s) else s
  | ScrollEvent env target =>
    let queue := dispatch (document env) (handlersOf target (listeners s)) in
    if mounted (hook s) then
      let v := reduceActiveElement (returned s) queue in
      let s' := withActiveElement v queue s in
      if v =? returned s then s' else render false env s'
    else
      (* a state setter called on an unmounted instance changes nothing *)
      withActiveElement (returned s) queue s
  | Unmount =>
    if mounted (hook s) then unmounted (runCleanup s) else s
  end.

Fixpoint run (es : list Event) (s : State) : State :=
  match es with
  | [] => s
  | e :: es' => run es' (step e s)
  end.

(** ** Specification-level vocabulary *)

(** The visibility threshold in the words of the specification: for the
    x-axis the rectangle spans from at most 10% to at least 90% of the window
    width, for the y-axis it contains the line 120px from the top. *)
Definition inView (direction : ScrollDirection.t) (windowDimensions : WindowDimensions)
    (rect : DOMRect.t) : bool :=
  match direction with
  | ScrollDirection.x =>
    PrimFloat.leb (DOMRect.left rect) (width windowDimensions * 0.1)%float
    && geb (DOMRect.right rect) (width windowDimensions * 0.9)%float
  | ScrollDirection.y =>
    PrimFloat.leb (DOMRect.top rect) 120%float && geb (DOMRect.bottom rect) 120%float
  end.

(** A candidate ID matches when its element exists and is in view. *)
Definition matches (document : Document) (direction : ScrollDirection.t)
    (windowDimensions : WindowDimensions) (elementId : string) : bool :=
  match getElementById document elementId with
  | Some section => inView direction windowDimensions (Element.getBoundingClientRect section)
  | None => false
  end.

(** The current scroll position of a container and the left/top of its
    frame, as [getScroll] reports them: a window's frame starts at (0, 0). *)
Definition scrollPosition (c : Container) : number * number :=
  match c with
  | Window _ sx sy => (sx, sy)
  | HTMLElement _ sl st _ => (sl, st)
  end.

Definition containerOrigin (c : Container) : number * number :=
  match c with
  | Window _ _ _ => (0%float, 0%float)
  | HTMLElement _ _ _ rect => (DOMRect.left rect, DOMRect.top rect)
  end.

(** States reached from a mount by any sequence of events. *)
Definition reachable (s : State) : Prop :=
  exists env p es, s = run es (mount env p).

(** What holds of the hook before a render: the first effect has copied the
    argument it last saw into [targetElement], the scrolling effect last ran
    for that target, and the only listener in the registry is the one the
    pending clean-up removes. *)
Definition registryOk (s : State) : Prop :=
  match cleanup (hook s) with
  | Some (c, i) => mounted (hook s) = true /\ exists l, listeners s = [(c, l)] /\ lid l = i
  | None => listeners s = []
  end.

Definition settled (s : State) : Prop :=
  deps1 (hook s) = targetElement (hook s) /\ registryOk s.

Definition invariant (s : State) : Prop :=
  settled s
  /\ d_targetElement (deps2 (hook s)) = targetElement (hook s)
  /\ (mounted (hook s) = true -> targetElement (hook s) = activeElementId (props (hook s)))
  /\ (forall c l, In (c, l) (listeners s) ->
        l_elementsIds l = elementsIds (props (hook s))
        /\ l_direction l = direction (props (hook s))).

(** ** Sample data *)

Definition rectOf (l t r b : number) : DOMRect.t := DOMRect.mk l t r b.

Definition sampleDocument : Document :=
  [ Element.mk "intro" (rectOf 0 (-380) 1000 120);
    Element.mk "about" (rectOf 0 120 1000 620);
    Element.mk "contact" (rectOf 0 620 1000 1120) ].

Definition sampleWindow : Container := Window 0 0 380.

Definition sampleEnv : Env :=
  mkEnv sampleDocument (Some sampleWindow) (mkDimensions 1000 800).

Definition sampleProps : Props :=
  arguments 7 ["intro"; "about"; "contact"] None None None.

(** ** Vocabulary for the properties of the lifecycle *)

Definition is_addEventListener (c : Call) : bool :=
  match c with addEventListener _ _ _ => true | _ => false end.
Definition is_removeEventListener (c : Call) : bool :=
  match c with removeEventListener _ _ _ => true | _ => false end.
Definition is_setTargetElement (c : Call) : bool :=
  match c with setTargetElement _ => true | _ => false end.

(** How many calls of a kind a trace holds. *)
Definition count (kind : Call -> bool) (t : list Call) : nat :=
  List.length (filter kind t).

(** The calls of the clean-up pending in a state, and the calls of the
    listener effect (lines 68-101) when it creates the closure [n]. *)
Definition cleanupCalls (s : State) : list Call :=
  match cleanup (hook s) with
  | Some (c, l) => [removeEventListener c "scroll" l]
  | None => []
  end.

Definition attachCalls (env : Env) (n : nat) : list Call :=
  call_getScrollContainer
  :: match container env with
     | Some c => [addEventListener (container_ref c) "scroll" n]
     | None => []
     end.

(** The calls that remove the handler [n] registered during a render in
    environment [env], and the identity of the next closure after such a
    render. *)
Definition detachCalls (env : Env) (n : nat) : list Call :=
  match container env with
  | Some c => [removeEventListener (container_ref c) "scroll" n]
  | None => []
  end.

Definition nextFresh (env : Env) (n : nat) : nat :=
  match container env with
  | Some _ => S n
  | None => n
  end.

(** The dependency list of the scrolling effect for given arguments. *)
Definition scrollDepsOf (targetElement : string) (p : Props) : ScrollDeps :=
  mkScrollDeps targetElement (getScrollContainer p) (direction p) (margin p).

(** A mounted hook whose scrolling effect last ran, or was last skipped, for
    the arguments it has now. *)
Definition synced (s : State) : Prop :=
  mounted (hook s) = true ->
  deps2 (hook s) = scrollDepsOf (targetElement (hook s)) (props (hook s)).

(** Events that keep the argument [activeElementId] at [a], and events that
    keep the candidates within [ids]. *)
Definition keepsActiveElementId (a : string) (e : Event) : Prop :=
  match e with
  | Rerender _ p => activeElementId p = a
  | _ => True
  end.

Definition candidatesWithin (ids : list string) (e : Event) : Prop :=
  match e with
  | Rerender _ p => incl (elementsIds p) ids
  | _ => True
  end.

(** ** Basic facts about the effect monad and the handler *)

Lemma determineActiveElement_spec document ids direction wd :
  determineActiveElement document ids direction wd
  = (map setActiveElement (filter (matches document direction wd) ids), Return tt).
Proof.
  unfold determineActiveElement.
  induction ids as [|i ids IH]; [reflexivity|].
  cbn [forEach filter]. rewrite IH. unfold matches at 2.
  destruct (getElementById document i) as [section|]; [|reflexivity].
  destruct direction; cbn [ScrollDirection.eqb inView];
    match goal with |- context [if ?b then emit _ else _] => destruct b end;
    reflexivity.
Qed.

Lemma last_cons {A} (v : A) (l : list A) (d : A) : last (v :: l) d = last l v.
Proof.
  revert v d; induction l as [|a l IH]; intros v d; [reflexivity|].
  change (last (v :: a :: l) d) with (last (a :: l) d).
  now rewrite (IH a d), (IH a v).
Qed.

Lemma reduce_setActiveElement (l : list string) (cur : string) :
  reduceActiveElement cur (map setActiveElement l) = last l cur.
Proof.
  revert cur; induction l as [|v l IH]; intros cur; [reflexivity|].
  cbn [map reduceActiveElement]. now rewrite IH, last_cons.
Qed.

Lemma afterScroll_last document ids direction wd cur :
  afterScroll document ids direction wd cur
  = last (filter (matches document direction wd) ids) cur.
Proof.
  unfold afterScroll. rewrite determineActiveElement_spec.
  apply reduce_setActiveElement.
Qed.

Lemma getElementById_nonempty document elementId section :
  getElementById document elementId = Some section -> elementId <> "".
Proof.
  unfold getElementById. intros H ->. discriminate.
Qed.

(** ** Renders preserve the reported value and re-establish the invariant *)

Lemma useScrollingNavigation_hook first env s :
  let h := hook s in
  let p := props h in
  let run1 := first || negb (activeElementId p =? deps1 h) in
  let now2 := mkScrollDeps (targetElement h) (getScrollContainer p) (direction p) (margin p) in
  let run2 := first || negb (sameScrollDeps now2 (deps2 h)) in
  mounted (hook (useScrollingNavigation first env s)) = mounted h
  /\ props (hook (useScrollingNavigation first env s)) = p
  /\ activeElement (hook (useScrollingNavigation first env s)) = activeElement h
  /\ targetElement (hook (useScrollingNavigation first env s))
     = (if run1 then activeElementId p else targetElement h)
  /\ deps1 (hook (useScrollingNavigation first env s)) = (if run1 then activeElementId p else deps1 h)
  /\ deps2 (hook (useScrollingNavigation first env s)) = (if run2 then now2 else deps2 h).
Proof.
  unfold useScrollingNavigation. destruct (container env); cbn; repeat split; reflexivity.
Qed.

Lemma runCleanup_registry s :
  registryOk s -> listeners (runCleanup s) = [] /\ cleanup (hook (runCleanup s)) = None.
Proof.
  unfold registryOk, runCleanup.
  destruct (cleanup (hook s)) as [[c i]|] eqn:E; [|now intros ->].
  intros [_ [l [-> <-]]]. cbn. unfold sameListener. cbn.
  now rewrite !Nat.eqb_refl.
Qed.

Lemma useScrollingNavigation_registry first env s :
  registryOk s -> mounted (hook s) = true ->
  registryOk (useScrollingNavigation first env s)
  /\ forall c l, In (c, l) (listeners (useScrollingNavigation first env s)) ->
       l_elementsIds l = elementsIds (props (hook s))
       /\ l_direction l = direction (props (hook s)).
Proof.
  intros R M. destruct (runCleanup_registry s R) as [L _].
  unfold useScrollingNavigation, registryOk. rewrite L.
  destruct (container env) as [c0|]; cbn.
  - split.
    + split; [exact M|]. eexists; split; [reflexivity|reflexivity].
    + intros c l [E|[]]. inversion E; subst; cbn. now split.
  - split; [reflexivity|]. intros c l [].
Qed.

Lemma eqb_string_refl (a : string) : (a =? a) = true.
Proof. apply String.eqb_refl. Qed.

Lemma sameScrollDeps_target a b :
  sameScrollDeps a b = true -> d_targetElement a = d_targetElement b.
Proof.
  unfold sameScrollDeps. intros H.
  apply andb_prop in H as [H _]. apply andb_prop in H as [H _].
  apply andb_prop in H as [H _]. now apply String.eqb_eq.
Qed.

Lemma render_activeElement first env s :
  activeElement (hook (render first env s)) = activeElement (hook s)
  /\ mounted (hook (render first env s)) = mounted (hook s)
  /\ props (hook (render first env s)) = props (hook s).
Proof.
  unfold render.
  destruct (useScrollingNavigation_hook first env s) as (M1 & P1 & A1 & _).
  destruct (_ =? _).
  - now rewrite M1, P1, A1.
  - destruct (useScrollingNavigation_hook false env (useScrollingNavigation first env s)) as (M2 & P2 & A2 & _).
    now rewrite M2, P2, A2, M1, P1, A1.
Qed.

Lemma useScrollingNavigation_invariant first env s :
  settled s -> mounted (hook s) = true ->
  targetElement (hook (useScrollingNavigation first env s)) = targetElement (hook s) ->
  invariant (useScrollingNavigation first env s).
Proof.
  intros (D1 & R) M T.
  destruct (useScrollingNavigation_hook first env s) as (M1 & P1 & _ & T1 & E1 & E2).
  destruct (useScrollingNavigation_registry first env s R M) as [R1 K1].
  cbv zeta in *. unfold invariant, settled.
  rewrite P1, E1, E2. rewrite T1 in T. rewrite T1.
  repeat split.
  - destruct (first || negb (activeElementId (props (hook s)) =? deps1 (hook s))); congruence.
  - exact R1.
  - rewrite T.
    destruct (first || negb (sameScrollDeps _ _)) eqn:E; [reflexivity|].
    apply orb_false_elim in E as [_ E]. apply negb_false_iff in E.
    now apply sameScrollDeps_target in E.
  - intros _.
    destruct (first || negb (activeElementId (props (hook s)) =? deps1 (hook s))) eqn:E;
      [reflexivity|].
    apply orb_false_elim in E as [_ E]. apply negb_false_iff in E.
    apply String.eqb_eq in E. congruence.
  - eapply K1; eassumption.
  - eapply K1; eassumption.
Qed.

Lemma useScrollingNavigation_settled first env s :
  settled s -> mounted (hook s) = true -> settled (useScrollingNavigation first env s).
Proof.
  intros (D1 & R) M.
  destruct (useScrollingNavigation_hook first env s) as (_ & _ & _ & T1 & E1 & _).
  destruct (useScrollingNavigation_registry first env s R M) as [R1 _].
  cbv zeta in *. split; [|exact R1]. rewrite T1, E1.
  destruct (first || negb (_ =? _)); congruence.
Qed.

Lemma render_invariant first env s :
  settled s -> mounted (hook s) = true -> invariant (render first env s).
Proof.
  intros S M. unfold render.
  destruct (targetElement (hook (useScrollingNavigation first env s)) =? targetElement (hook s)) eqn:E.
  - apply String.eqb_eq in E. now apply useScrollingNavigation_invariant.
  - apply String.eqb_neq in E.
    pose proof (useScrollingNavigation_settled first env s S M) as S1.
    destruct (useScrollingNavigation_hook first env s) as (M1 & P1 & _ & T1 & E1 & _).
    cbv zeta in *.
    apply useScrollingNavigation_invariant; [exact S1|congruence|].
    destruct (useScrollingNavigation_hook false env (useScrollingNavigation first env s)) as (_ & _ & _ & T2 & _).
    cbv zeta in T2. rewrite T2, P1, E1.
    destruct (first || negb (activeElementId (props (hook s)) =? deps1 (hook s))) eqn:R1.
    + now rewrite eqb_string_refl.
    + exfalso. apply E. now rewrite T1.
Qed.

(** ** The invariant holds in every reachable state *)

Lemma mount_invariant env p : invariant (mount env p).
Proof.
  unfold mount. apply render_invariant; [|reflexivity].
  split; reflexivity.
Qed.

Lemma withActiveElement_invariant v t s :
  invariant s -> invariant (withActiveElement v t s).
Proof. intros H; exact H. Qed.

Lemma unmounted_invariant s :
  invariant s -> invariant (unmounted (runCleanup s)).
Proof.
  intros ((D1 & R) & D2 & _ & _).
  destruct (runCleanup_registry s R) as [L C].
  assert (F : deps1 (hook (runCleanup s)) = deps1 (hook s)
              /\ deps2 (hook (runCleanup s)) = deps2 (hook s)
              /\ targetElement (hook (runCleanup s)) = targetElement (hook s)).
  { unfold runCleanup. now destruct (cleanup (hook s)) as [[c i]|]. }
  destruct F as (F1 & F2 & F3).
  unfold invariant, settled, registryOk, unmounted; cbn.
  rewrite C, L, F1, F2, F3.
  split; [split; [exact D1|reflexivity]|].
  split; [exact D2|]. split; [discriminate|]. intros c0 l0 [].
Qed.

Lemma step_invariant e s : invariant s -> invariant (step e s).
Proof.
  intros I. destruct e as [env p|env target|]; cbn [step].
  - destruct (mounted (hook s)) eqn:M; [|exact I].
    apply render_invariant; [|exact M]. exact (proj1 I).
  - destruct (mounted (hook s)) eqn:M.
    + destruct (_ =? _).
      * now apply withActiveElement_invariant.
      * apply render_invariant; [|exact M]. exact (proj1 I).
    + now apply withActiveElement_invariant.
  - destruct (mounted (hook s)) eqn:M; [|exact I].
    now apply unmounted_invariant.
Qed.

Lemma run_invariant es s : invariant s -> invariant (run es s).
Proof.
  revert s; induction es as [|e es IH]; intros s I; [exact I|].
  cbn [run]. apply IH. now apply step_invariant.
Qed.

Lemma reachable_invariant s : reachable s -> invariant s.
Proof.
  intros (env & p & es & ->). apply run_invariant, mount_invariant.
Qed.

Lemma invariant_unmounted_registry s :
  invariant s -> mounted (hook s) = false -> listeners s = [].
Proof.
  intros ((_ & R) & _) M. unfold registryOk in R.
  destruct (cleanup (hook s)) as [[c i]|]; [|exact R].
  destruct R as [M' _]. congruence.
Qed.

Lemma invariant_single_listener s c l :
  invariant s -> In (c, l) (listeners s) ->
  listeners s = [(c, l)] /\ cleanup (hook s) = Some (c, lid l)
  /\ mounted (hook s) = true.
Proof.
  intros ((_ & R) & _) H. unfold registryOk in R.
  destruct (cleanup (hook s)) as [[c' i]|].
  - destruct R as [M [l' [L <-]]]. rewrite L in H. destruct H as [H|[]].
    inversion H; subst. auto.
  - rewrite R in H. destruct H.
Qed.

(** Without a registered handler, and once unmounted, no event has any
    effect. *)
Lemma step_unmounted e s :
  mounted (hook s) = false -> listeners s = [] -> step e s = s.
Proof.
  intros M L. destruct e as [env p|env target|]; cbn [step]; rewrite M; try reflexivity.
  rewrite L. cbn. unfold withActiveElement, returned.
  destruct s as [h ls f t]; destruct h; cbn. now rewrite app_nil_r.
Qed.

Lemma run_unmounted es s :
  mounted (hook s) = false -> listeners s = [] -> run es s = s.
Proof.
  intros M L. induction es as [|e es IH]; [reflexivity|].
  cbn [run]. now rewrite (step_unmounted e s M L).
Qed.

Lemma step_Unmount_mounted s : mounted (hook (step Unmount s)) = false.
Proof.
  cbn [step]. destruct (mounted (hook s)) eqn:M; [reflexivity|exact M].
Qed.

(** A scroll event on the container the handler is registered on. *)
Lemma scrollEvent_returned s env c l :
  invariant s -> In (c, l) (listeners s) ->
  returned (step (ScrollEvent env c) s)
  = afterScroll (document env) (l_elementsIds l) (l_direction l)
                (l_windowDimensions l) (returned s).
Proof.
  intros I H. destruct (invariant_single_listener s c l I H) as (L & _ & M).
  cbn [step]. rewrite M, L. unfold handlersOf. cbn [filter fst].
  rewrite Nat.eqb_refl. cbn [map snd dispatch]. rewrite app_nil_r.
  unfold afterScroll.
  destruct (_ =? _).
  - reflexivity.
  - unfold returned at 1.
    now rewrite (proj1 (render_activeElement false env _)).
Qed.

Lemma scrollEvent_reachable s env c l :
  reachable s -> In (c, l) (listeners s) ->
  returned (step (ScrollEvent env c) s)
  = last (filter (matches (document env) (direction (props (hook s))) (l_windowDimensions l))
                 (elementsIds (props (hook s))))
         (returned s).
Proof.
  intros R H. pose proof (reachable_invariant s R) as I.
  rewrite (scrollEvent_returned s env c l I H), afterScroll_last.
  destruct I as (_ & _ & _ & K). destruct (K c l H) as [-> ->]. reflexivity.
Qed.

Lemma withActiveElement_same s : withActiveElement (returned s) [] s = s.
Proof.
  unfold withActiveElement, returned.
  destruct s as [h ls f t]; destruct h; cbn. now rewrite app_nil_r.
Qed.

(** A scroll event whose handlers call no state setter leaves the whole
    state as it was. *)
Lemma scrollEvent_idle s env target :
  dispatch (document env) (handlersOf target (listeners s)) = [] ->
  step (ScrollEvent env target) s = s.
Proof.
  intros Q. cbn [step]. rewrite Q. cbn [reduceActiveElement].
  rewrite eqb_string_refl, withActiveElement_same. now destruct (mounted (hook s)).
Qed.

Lemma In_setActiveElement document ids direction wd v :
  In (setActiveElement v) (calls (determineActiveElement document ids direction wd))
  <-> In v ids /\ matches document direction wd v = true.
Proof.
  rewrite determineActiveElement_spec. unfold calls. cbn [fst].
  rewrite <- filter_In. rewrite in_map_iff. split.
  - intros (w & E & H). now inversion E; subst.
  - intros H. now exists v.
Qed.

Lemma matches_iff document direction wd v :
  matches document direction wd v = true
  <-> exists section, getElementById document v = Some section
        /\ inView direction wd (Element.getBoundingClientRect section) = true.
Proof.
  unfold matches. destruct (getElementById document v) as [section|].
  - split; [intros H; now exists section|]. intros (s' & E & H). now inversion E; subst.
  - split; [discriminate|]. intros (s' & E & _). discriminate.
Qed.

Lemma sample_reachable : reachable (mount sampleEnv sampleProps).
Proof. now exists sampleEnv, sampleProps, []. Qed.

Lemma runCleanup_trace s : exists t0, trace (runCleanup s) = trace s ++ t0.
Proof.
  unfold runCleanup. destruct (cleanup (hook s)) as [[c i]|].
  - now eexists.
  - exists []. now rewrite app_nil_r.
Qed.

(** The calls of one render: the clean-up, then the three effects in the
    order of the source. *)
Lemma useScrollingNavigation_trace first env s :
  let h := hook s in
  let p := props h in
  let run1 := first || negb (activeElementId p =? deps1 h) in
  let now2 := mkScrollDeps (targetElement h) (getScrollContainer p) (direction p) (margin p) in
  let run2 := first || negb (sameScrollDeps now2 (deps2 h)) in
  exists t0 t3,
    trace (useScrollingNavigation first env s)
    = trace s ++ t0
      ++ (if run1 then [setTargetElement (activeElementId p)] else [])
      ++ (if run2 then calls (scroll env (targetElement h) (direction p) (margin p)) else [])
      ++ t3.
Proof.
  cbv zeta. destruct (runCleanup_trace s) as [t0 E0].
  unfold useScrollingNavigation. destruct (container env); cbn [trace]; rewrite E0;
    eexists t0, _; rewrite <- !app_assoc; reflexivity.
Qed.

(** A render after the argument [activeElementId] changed: the first pass
    stores the new target, the second one scrolls to it. *)
Lemma render_new_target env s :
  settled s -> d_targetElement (deps2 (hook s)) = targetElement (hook s) ->
  let p := props (hook s) in
  activeElementId p <> targetElement (hook s) ->
  exists before middle after,
    trace (render false env s)
    = trace s ++ before
      ++ setTargetElement (activeElementId p)
         :: middle
      ++ calls (scroll env (activeElementId p) (direction p) (margin p))
      ++ after.
Proof.
  intros (D1 & R) D2 p NE. unfold render.
  destruct (useScrollingNavigation_hook false env s) as (M1 & P1 & _ & T1 & E1 & E2).
  destruct (useScrollingNavigation_trace false env s) as (t0 & t3 & C1).
  cbv zeta in *. fold p in T1, E1, E2, C1, P1.
  assert (X1 : (activeElementId p =? deps1 (hook s)) = false).
  { apply String.eqb_neq. congruence. }
  rewrite X1 in T1, E1, C1. cbn [negb orb] in T1, E1, C1.
  assert (X2 : (targetElement (hook (useScrollingNavigation false env s)) =? targetElement (hook s)) = false).
  { rewrite T1. now apply String.eqb_neq. }
  rewrite X2.
  destruct (useScrollingNavigation_trace false env (useScrollingNavigation false env s)) as (t0' & t3' & C2).
  cbv zeta in C2. rewrite P1, E1, T1, eqb_string_refl in C2. cbn [negb orb] in C2.
  assert (X3 : sameScrollDeps
                 (mkScrollDeps (activeElementId p) (getScrollContainer p)
                               (direction p) (margin p))
                 (deps2 (hook (useScrollingNavigation false env s))) = false).
  { destruct (sameScrollDeps _ (deps2 (hook (useScrollingNavigation false env s)))) eqn:Q; [|reflexivity].
    apply sameScrollDeps_target in Q. cbn [d_targetElement] in Q.
    rewrite E2 in Q. exfalso. apply NE. rewrite Q.
    destruct (negb _); [reflexivity|exact D2]. }
  rewrite X3 in C2. cbn [negb orb] in C2.
  rewrite C2, C1.
  exists t0, ((if negb (sameScrollDeps
                         (mkScrollDeps (targetElement (hook s)) (getScrollContainer p)
                                       (direction p) (margin p))
                         (deps2 (hook s)))
               then calls (scroll env (targetElement (hook s)) (direction p) (margin p))
               else []) ++ t3 ++ t0'), t3'.
  cbn [app]. rewrite <- !app_assoc. cbn [app]. rewrite <- !app_assoc. reflexivity.
Qed.

(** * The claims *)

(** ** [getScroll] *)

(** C6: for every input with no [scrollX] and no [scrollLeft] property,
    [getScroll] logs one error to the console, naming the input, and returns
    the array [0, 0, 0, 0]. *)
Theorem getScroll_unrecognised (element : JSObject) :
  scrollX element = None ->
  scrollLeft element = None ->
  getScroll element
  = ([console_error "The element is neither of type Window or HTMLElement" (ref element)],
     Return [num 0; num 0; num 0; num 0]).
Proof.
  intros HX HL. unfold getScroll. now rewrite HX, HL.
Qed.

Lemma getScroll_unrecognised_witness :
  getScroll (mkObject 3 None None None None None)
  = ([console_error "The element is neither of type Window or HTMLElement" 3],
     Return [num 0; num 0; num 0; num 0]).
Proof.
  apply (getScroll_unrecognised (mkObject 3 None None None None None)); reflexivity.
Defined.

(** C10, as worded, takes every input with [scrollX] defined for a window
    and every input with [scrollLeft] defined for an element.  Outside the
    declared type [Window | HTMLElement] that fails: an object with [scrollX]
    and no [scrollY] yields [undefined] in the second slot, and an object with
    [scrollLeft] and [scrollTop] but no [getBoundingClientRect] method makes
    the call on line 118 throw. *)
Lemma getScroll_outside_declared_type :
  getScroll (mkObject 1 (Some 5%float) None None None None)
  = ([], Return [num 5; undefined; num 0; num 0])
  /\ getScroll (mkObject 2 None None (Some 15%float) (Some 240%float) None)
     = ([], Throw "TypeError: element.getBoundingClientRect is not a function").
Proof. split; reflexivity. Qed.

(** C10, amended: [getScroll] never throws on an input of its declared type and on
    an input with neither property.  Whenever [scrollX] is defined it returns
    [scrollX, scrollY, 0, 0]; when [scrollX] is undefined and [scrollLeft]
    defined, as for every [HTMLElement], it returns [scrollLeft, scrollTop]
    followed by the left and top of the bounding rectangle; nothing is logged
    in either case.  For a [Window], for an [HTMLElement] and for an input
    with neither property the result is an array of exactly four numbers. *)
Theorem getScroll_total (element : JSObject) :
  (forall sx, scrollX element = Some sx ->
     getScroll element = ([], Return [num sx; prop (scrollY element); num 0; num 0]))
  /\ (forall sl rect,
        scrollX element = None -> scrollLeft element = Some sl ->
        getBoundingClientRect element = Some rect ->
        getScroll element
        = ([], Return [num sl; prop (scrollTop element);
                       num (DOMRect.left rect); num (DOMRect.top rect)]))
  /\ (forall r sx sy, element = as_object (Window r sx sy) ->
        getScroll element = ([], Return [num sx; num sy; num 0; num 0]))
  /\ (forall r sl st rect, element = as_object (HTMLElement r sl st rect) ->
        getScroll element
        = ([], Return [num sl; num st; num (DOMRect.left rect); num (DOMRect.top rect)]))
  /\ (is_Window element \/ is_HTMLElement element
      \/ (scrollX element = None /\ scrollLeft element = None) ->
      exists a b c d,
        completion (getScroll element) = Return [num a; num b; num c; num d]).
Proof.
  repeat split.
  - intros sx HX. unfold getScroll. now rewrite HX.
  - intros sl rect HX HL HR. unfold getScroll. now rewrite HX, HL, HR.
  - now intros r sx sy ->.
  - now intros r sl st rect ->.
  - intros [(r & sx & sy & ->)|[(r & sl & st & rect & ->)|[HX HL]]].
    + now exists sx, sy, 0%float, 0%float.
    + now exists sl, st, (DOMRect.left rect), (DOMRect.top rect).
    + exists 0%float, 0%float, 0%float, 0%float.
      unfold getScroll. now rewrite HX, HL.
Qed.

Lemma getScroll_total_witness :
  getScroll (as_object (HTMLElement 1 15 240 (rectOf 8 64 808 664)))
  = ([], Return [num 15; num 240; num 8; num 64])
  /\ exists a b c d,
       completion (getScroll (as_object (Window 0 0 380)))
       = Return [num a; num b; num c; num d].
Proof.
  split.
  - apply (proj1 (proj2 (getScroll_total
                           (as_object (HTMLElement 1 15 240 (rectOf 8 64 808 664)))))
             15%float (rectOf 8 64 808 664)); reflexivity.
  - apply (proj2 (proj2 (proj2 (proj2 (getScroll_total (as_object (Window 0 0 380))))))).
    left. exists 0, 0%float, 380%float. reflexivity.
Defined.

(** ** [scroll] *)

(** C4: with the empty string as target, [scroll] returns at once: no call
    is made at all, neither [scrollTo] nor [getScrollContainer] nor anything
    else. *)
Theorem scroll_empty_target (env : Env) (direction : ScrollDirection.t) (margin : number) :
  scroll env "" direction margin = ([], Return tt).
Proof. reflexivity. Qed.

(** C5: when [getScrollContainer()] returns null, or when no element of
    the document has the target ID, [scroll] completes normally without
    calling [scrollTo] and without logging: the only call it can have made is
    the one to [getScrollContainer]. *)
Theorem scroll_missing (env : Env) (targetElement : string)
    (direction : ScrollDirection.t) (margin : number) :
  container env = None \/ getElementById (document env) targetElement = None ->
  completion (scroll env targetElement direction margin) = Return tt
  /\ calls (scroll env targetElement direction margin)
     = (if targetElement =? "" then [] else [call_getScrollContainer])
  /\ existsb is_scrollTo (calls (scroll env targetElement direction margin)) = false
  /\ existsb is_console_error (calls (scroll env targetElement direction margin)) = false.
Proof.
  intros H. unfold scroll.
  destruct (targetElement =? ""); [now repeat split|].
  destruct H as [H|H]; rewrite H; cbn.
  - now repeat split.
  - destruct (container env); now repeat split.
Qed.

Lemma scroll_missing_witness :
  completion (scroll sampleEnv "pricing" ScrollDirection.y 0) = Return tt
  /\ calls (scroll sampleEnv "pricing" ScrollDirection.y 0) = [call_getScrollContainer]
  /\ existsb is_scrollTo (calls (scroll sampleEnv "pricing" ScrollDirection.y 0)) = false
  /\ existsb is_console_error (calls (scroll sampleEnv "pricing" ScrollDirection.y 0)) = false.
Proof.
  apply (scroll_missing sampleEnv "pricing" ScrollDirection.y 0).
  right. reflexivity.
Defined.

(** C2: with a non-empty target, a container and an element of that ID,
    [scroll] calls [scrollTo] on the container exactly once, with smooth
    behaviour.  On the configured axis the offset is the container's current
    scroll position plus (the element's left/top minus the container's
    left/top minus the margin); on the other axis the offset passed is 0. *)
Theorem scroll_to_target (env : Env) (targetElement : string)
    (direction : ScrollDirection.t) (margin : number)
    (c : Container) (element : Element.t) :
  targetElement <> "" ->
  container env = Some c ->
  getElementById (document env) targetElement = Some element ->
  let rect := Element.getBoundingClientRect element in
  let scrollToX :=
    (fst (scrollPosition c) + (DOMRect.left rect - fst (containerOrigin c) - margin))%float in
  let scrollToY :=
    (snd (scrollPosition c) + (DOMRect.top rect - snd (containerOrigin c) - margin))%float in
  scroll env targetElement direction margin
  = ([call_getScrollContainer;
      scrollTo (container_ref c)
        match direction with
        | ScrollDirection.x => mkOptions scrollToX 0 "smooth"
        | ScrollDirection.y => mkOptions 0 scrollToY "smooth"
        end],
     Return tt).
Proof.
  intros HT HC HE. unfold scroll.
  apply String.eqb_neq in HT. rewrite HT, HC, HE.
  destruct c, direction; reflexivity.
Qed.

Lemma scroll_to_target_witness :
  scroll (mkEnv sampleDocument
                (Some (HTMLElement 1 15 240 (rectOf 8 64 808 664)))
                (mkDimensions 1000 800))
         "contact" ScrollDirection.y 16
  = ([call_getScrollContainer; scrollTo 1 (mkOptions 0 780 "smooth")], Return tt).
Proof.
  apply (scroll_to_target
           (mkEnv sampleDocument
                  (Some (HTMLElement 1 15 240 (rectOf 8 64 808 664)))
                  (mkDimensions 1000 800))
           "contact" ScrollDirection.y 16
           (HTMLElement 1 15 240 (rectOf 8 64 808 664))
           (Element.mk "contact" (rectOf 0 620 1000 1120))).
  - discriminate.
  - reflexivity.
  - reflexivity.
Defined.

(** ** The scroll handler [determineActiveElement] *)

(** C1, as the specification words it, fails when two candidates are over
    the threshold at once.  Two stacked sections meet at the line 120px from
    the top: ["intro"] has [top <= 120] and [bottom >= 120], yet after the
    scroll event the hook reports ["about"]. *)
Lemma scroll_spy_first_match_overridden :
  In "intro" (elementsIds sampleProps)
  /\ getElementById (document sampleEnv) "intro"
     = Some (Element.mk "intro" (rectOf 0 (-380) 1000 120))
  /\ PrimFloat.leb (-380) 120 = true
  /\ geb 120 120 = true
  /\ returned (step (ScrollEvent sampleEnv 0) (mount sampleEnv sampleProps)) = "about"
  /\ returned (step (ScrollEvent sampleEnv 0) (mount sampleEnv sampleProps)) <> "intro".
Proof.
  repeat split; try (vm_compute; auto; fail).
  vm_compute. discriminate.
Qed.

(** C1, amended: the handler calls [setActiveElement] on an ID exactly
    when the ID is in [elementsIds], an element of that ID exists, and its
    bounding rectangle is over the threshold ([top <= 120] and [bottom >= 120]
    for direction y; [left <= width * 0.1] and [right >= width * 0.9] for
    direction x).  After a scroll event on the container the hook reports the
    candidate over the threshold that no later candidate over the threshold
    follows in [elementsIds]. *)
Theorem scroll_spy_threshold (s : State) (env : Env) (c : nat) (l : Listener) :
  reachable s ->
  In (c, l) (listeners s) ->
  let ids := elementsIds (props (hook s)) in
  let dir := direction (props (hook s)) in
  let wd := l_windowDimensions l in
  (forall rect,
     inView dir wd rect
     = match dir with
       | ScrollDirection.x =>
         PrimFloat.leb (DOMRect.left rect) (width wd * 0.1)%float
         && geb (DOMRect.right rect) (width wd * 0.9)%float
       | ScrollDirection.y =>
         PrimFloat.leb (DOMRect.top rect) 120%float && geb (DOMRect.bottom rect) 120%float
       end)
  /\ (forall v,
        In (setActiveElement v) (calls (determineActiveElement (document env) ids dir wd))
        <-> In v ids
            /\ exists section,
                 getElementById (document env) v = Some section
                 /\ inView dir wd (Element.getBoundingClientRect section) = true)
  /\ (forall pre v post section,
        ids = pre ++ v :: post ->
        getElementById (document env) v = Some section ->
        inView dir wd (Element.getBoundingClientRect section) = true ->
        (forall v', In v' post -> matches (document env) dir wd v' = false) ->
        returned (step (ScrollEvent env c) s) = v).
Proof.
  intros R H ids dir wd. split; [|split].
  - intros rect. now destruct dir.
  - intros v. now rewrite In_setActiveElement, matches_iff.
  - intros pre v post section E G V N.
    rewrite (scrollEvent_reachable s env c l R H).
    fold ids dir wd. rewrite E, filter_app. cbn [filter].
    assert (M : matches (document env) dir wd v = true).
    { apply matches_iff. now exists section. }
    rewrite M.
    assert (P : filter (matches (document env) dir wd) post = []).
    { clear E. induction post as [|a post IH]; [reflexivity|].
      cbn [filter]. rewrite (N a (or_introl eq_refl)). apply IH.
      intros v' Hv. apply N. now right. }
    rewrite P. now rewrite last_last.
Qed.

Lemma scroll_spy_threshold_witness :
  returned (step (ScrollEvent sampleEnv 0) (mount sampleEnv sampleProps)) = "about".
Proof.
  refine (proj2 (proj2 (scroll_spy_threshold
            (mount sampleEnv sampleProps) sampleEnv 0
            (mkListener 0 ["intro"; "about"; "contact"] ScrollDirection.y (mkDimensions 1000 800))
            sample_reachable _))
          ["intro"] "about" ["contact"] (Element.mk "about" (rectOf 0 120 1000 620))
          _ _ _ _).
  - left. reflexivity.
  - reflexivity.
  - reflexivity.
  - reflexivity.
  - intros v' [<-|[]]. reflexivity.
Defined.

(** C3: within one scroll event the handler calls [setActiveElement] once
    for each candidate over the threshold, in the order of [elementsIds], so
    each later call overrides the earlier ones: the hook then reports the last
    matching ID of the list. *)
Theorem scroll_spy_last_match (s : State) (env : Env) (c : nat) (l : Listener) :
  reachable s ->
  In (c, l) (listeners s) ->
  let ids := elementsIds (props (hook s)) in
  let dir := direction (props (hook s)) in
  let wd := l_windowDimensions l in
  calls (determineActiveElement (document env) ids dir wd)
  = map setActiveElement (filter (matches (document env) dir wd) ids)
  /\ forall earlier v,
       filter (matches (document env) dir wd) ids = earlier ++ [v] ->
       returned (step (ScrollEvent env c) s) = v.
Proof.
  intros R H ids dir wd. split.
  - now rewrite determineActiveElement_spec.
  - intros earlier v E.
    rewrite (scrollEvent_reachable s env c l R H). fold ids dir wd.
    rewrite E. apply last_last.
Qed.

Lemma scroll_spy_last_match_witness :
  calls (determineActiveElement sampleDocument ["intro"; "about"; "contact"]
                                ScrollDirection.y (mkDimensions 1000 800))
  = [setActiveElement "intro"; setActiveElement "about"]
  /\ returned (step (ScrollEvent sampleEnv 0) (mount sampleEnv sampleProps)) = "about".
Proof.
  pose proof (scroll_spy_last_match
                (mount sampleEnv sampleProps) sampleEnv 0
                (mkListener 0 ["intro"; "about"; "contact"] ScrollDirection.y
                            (mkDimensions 1000 800))
                sample_reachable (or_introl eq_refl)) as [HC HL].
  split.
  - exact HC.
  - exact (HL ["intro"] "about" eq_refl).
Defined.

(** C8: a scroll event during which no candidate of [elementsIds] both
    exists in the document and is over the threshold changes nothing: the
    handler calls no state setter, and the reported active element is the one
    reported before.  Whatever the document, the handler never passes the
    empty string to [setActiveElement]. *)
Theorem scroll_spy_no_match (s : State) (env : Env) (target : nat) :
  reachable s ->
  (forall c l v, In (c, l) (listeners s) ->
     In v (elementsIds (props (hook s))) ->
     getElementById (document env) v = None
     \/ exists section,
          getElementById (document env) v = Some section
          /\ inView (direction (props (hook s))) (l_windowDimensions l)
                    (Element.getBoundingClientRect section) = false) ->
  returned (step (ScrollEvent env target) s) = returned s
  /\ trace (step (ScrollEvent env target) s) = trace s
  /\ forall document ids direction wd,
       ~ In (setActiveElement "")
            (calls (determineActiveElement document ids direction wd)).
Proof.
  intros R N.
  assert (Q : dispatch (document env) (handlersOf target (listeners s)) = []).
  { pose proof (reachable_invariant s R) as I.
    destruct (listeners s) as [|[c l] ls] eqn:L; [reflexivity|].
    assert (H : In (c, l) (listeners s)) by (rewrite L; now left).
    destruct (invariant_single_listener s c l I H) as (L1 & _).
    rewrite L in L1. inversion L1; subst ls.
    unfold handlersOf. cbn [filter fst]. destruct (Nat.eqb c target); [|reflexivity].
    cbn [map snd dispatch]. rewrite app_nil_r, determineActiveElement_spec.
    destruct I as (_ & _ & _ & K). destruct (K c l H) as [-> ->].
    unfold calls; cbn [fst].
    assert (F : forall ids,
               (forall v, In v ids -> In v (elementsIds (props (hook s)))) ->
               filter (matches (document env) (direction (props (hook s)))
                               (l_windowDimensions l)) ids = []).
    { induction ids as [|a ids IH]; intros S; [reflexivity|].
      cbn [filter].
      assert (M : matches (document env) (direction (props (hook s)))
                          (l_windowDimensions l) a = false).
      { unfold matches.
        destruct (N c l a (or_introl eq_refl) (S a (or_introl eq_refl)))
          as [->|(section & -> & V)];
          [reflexivity|exact V]. }
      rewrite M. apply IH. intros v Hv. apply S. now right. }
    now rewrite F. }
  rewrite (scrollEvent_idle s env target Q). repeat split.
  intros document ids direction wd H.
  apply In_setActiveElement in H as [_ M].
  apply matches_iff in M as (section & G & _).
  now apply getElementById_nonempty in G.
Qed.

Lemma scroll_spy_no_match_witness :
  returned (step (ScrollEvent (mkEnv [Element.mk "intro" (rectOf 0 200 1000 700)]
                                     (Some sampleWindow) (mkDimensions 1000 800)) 0)
                 (mount sampleEnv sampleProps))
  = returned (mount sampleEnv sampleProps).
Proof.
  refine (proj1 (scroll_spy_no_match
            (mount sampleEnv sampleProps)
            (mkEnv [Element.mk "intro" (rectOf 0 200 1000 700)]
                   (Some sampleWindow) (mkDimensions 1000 800)) 0
            sample_reachable _)).
  intros c l v [E|[]] [<-|[<-|[<-|[]]]]; inversion E; subst; cbn.
  - right. eexists; split; reflexivity.
  - left; reflexivity.
  - left; reflexivity.
Defined.

(** ** The lifecycle of the hook *)

(** C7: unmounting removes the scroll listener from the container it was
    attached to (the last call made is that [removeEventListener]), no
    listener of the hook is left, and whatever happens afterwards (scroll
    events on any object included) neither calls anything nor changes the
    reported active element. *)
Theorem unmount_detaches (env : Env) (p : Props) (es es' : list Event) :
  let s := run es (mount env p) in
  let u := step Unmount s in
  listeners u = []
  /\ (forall c l, In (c, l) (listeners s) ->
        trace u = trace s ++ [removeEventListener c "scroll" (lid l)])
  /\ run es' u = u
  /\ trace (run es' u) = trace u
  /\ returned (run es' u) = returned u.
Proof.
  intros s u.
  assert (I : invariant s) by apply run_invariant, mount_invariant.
  assert (L : listeners u = []).
  { apply invariant_unmounted_registry.
    - now apply step_invariant.
    - apply step_Unmount_mounted. }
  assert (U : run es' u = u).
  { apply run_unmounted; [apply step_Unmount_mounted|exact L]. }
  split; [exact L|]. split; [|now rewrite U].
  intros c l H.
  destruct (invariant_single_listener s c l I H) as (_ & C & M).
  unfold u. cbn [step]. rewrite M. unfold runCleanup. now rewrite C.
Qed.

Lemma unmount_detaches_witness :
  listeners (step Unmount (mount sampleEnv sampleProps)) = []
  /\ trace (step Unmount (mount sampleEnv sampleProps))
     = trace (mount sampleEnv sampleProps) ++ [removeEventListener 0 "scroll" 0]
  /\ returned (run [ScrollEvent sampleEnv 0; ScrollEvent sampleEnv 0]
                   (step Unmount (mount sampleEnv sampleProps))) = "".
Proof.
  pose proof (unmount_detaches sampleEnv sampleProps []
                [ScrollEvent sampleEnv 0; ScrollEvent sampleEnv 0])
    as (HL & HT & _ & _ & HR).
  split; [exact HL|]. split.
  - exact (HT 0 (mkListener 0 ["intro"; "about"; "contact"] ScrollDirection.y
                            (mkDimensions 1000 800))
              (or_introl eq_refl)).
  - exact HR.
Defined.

(** C9: the hook returns [activeElementId] on the initial render only.
    Afterwards a render with another [activeElementId] returns what was
    returned before; it stores the new ID in [targetElement] and runs
    [scroll] for it.  No event other than a scroll event changes the returned
    value. *)
Theorem argument_change_keeps_returned (s : State) (env : Env) (p' : Props) :
  reachable s ->
  mounted (hook s) = true ->
  let s' := step (Rerender env p') s in
  returned s' = returned s
  /\ targetElement (hook s') = activeElementId p'
  /\ (activeElementId p' <> activeElementId (props (hook s)) ->
      exists before middle after,
        trace s'
        = trace s ++ before
          ++ setTargetElement (activeElementId p')
             :: middle
          ++ calls (scroll env (activeElementId p') (direction p') (margin p'))
          ++ after)
  /\ (forall e,
        match e with
        | ScrollEvent _ _ => True
        | _ => returned (step e s) = returned s
        end)
  /\ (forall env0 p0, returned (mount env0 p0) = activeElementId p0).
Proof.
  intros R M s'. pose proof (reachable_invariant s R) as I.
  assert (RR : forall env1 p1, returned (step (Rerender env1 p1) s) = returned s).
  { intros env1 p1. cbn [step]. rewrite M. unfold returned.
    now rewrite (proj1 (render_activeElement false env1 (withProps p1 s))). }
  split; [apply RR|]. split; [|split; [|split]].
  - unfold s'. cbn [step]. rewrite M.
    assert (I1 : invariant (render false env (withProps p' s))).
    { apply render_invariant; [exact (proj1 I)|exact M]. }
    destruct I1 as (_ & _ & T & _).
    destruct (render_activeElement false env (withProps p' s)) as (_ & M1 & P1).
    rewrite T; [now rewrite P1|now rewrite M1].
  - intros NE. unfold s'. cbn [step]. rewrite M.
    destruct I as (S & D2 & T & _).
    apply (render_new_target env (withProps p' s)); [exact S|exact D2|].
    cbn. rewrite (T M). exact NE.
  - intros [env1 p1|env1 target|]; [apply RR|exact Logic.I|].
    cbn [step]. rewrite M. unfold returned, unmounted, runCleanup.
    now destruct (cleanup (hook s)) as [[c i]|].
  - intros env0 p0. unfold mount, returned.
    now rewrite (proj1 (render_activeElement true env0 _)).
Qed.

Lemma argument_change_keeps_returned_witness :
  returned (step (Rerender sampleEnv
                           (mkProps 7 ["intro"; "about"; "contact"] "contact"
                                    ScrollDirection.y 10))
                 (mount sampleEnv sampleProps))
  = returned (mount sampleEnv sampleProps)
  /\ targetElement (hook (step (Rerender sampleEnv
                                         (mkProps 7 ["intro"; "about"; "contact"] "contact"
                                                  ScrollDirection.y 10))
                               (mount sampleEnv sampleProps)))
     = "contact".
Proof.
  pose proof (argument_change_keeps_returned
                (mount sampleEnv sampleProps) sampleEnv
                (mkProps 7 ["intro"; "about"; "contact"] "contact" ScrollDirection.y 10)
                sample_reachable eq_refl) as (HR & HT & _).
  split; [exact HR|exact HT].
Defined.

(** * Further properties of the hook *)

(** ** How one render and its effects act on the trace and the registry *)

Lemma ScrollDirection_eqb_eq a b : ScrollDirection.eqb a b = true <-> a = b.
Proof. destruct a, b; cbn; split; congruence. Qed.

Lemma sameScrollDeps_eq a b : sameScrollDeps a b = true <-> a = b.
Proof.
  unfold sameScrollDeps, Object_is. split.
  - intros H.
    apply andb_prop in H as [H H4]. apply andb_prop in H as [H H3].
    apply andb_prop in H as [H1 H2].
    apply String.eqb_eq in H1. apply Nat.eqb_eq in H2.
    apply ScrollDirection_eqb_eq in H3. apply Leibniz.eqb_spec in H4.
    destruct a, b; cbn in *; congruence.
  - intros <-. rewrite String.eqb_refl, Nat.eqb_refl. cbn.
    rewrite (proj2 (ScrollDirection_eqb_eq _ _) eq_refl).
    now rewrite (proj2 (Leibniz.eqb_spec _ _) eq_refl).
Qed.

Lemma runCleanup_calls s :
  trace (runCleanup s) = trace s ++ cleanupCalls s /\ fresh (runCleanup s) = fresh s.
Proof.
  unfold runCleanup, cleanupCalls. destruct (cleanup (hook s)) as [[c i]|]; cbn.
  - now split.
  - now rewrite app_nil_r.
Qed.

Lemma pass_trace first env s :
  let h := hook s in
  let p := props h in
  let run1 := first || negb (activeElementId p =? deps1 h) in
  let run2 := first || negb (sameScrollDeps (scrollDepsOf (targetElement h) p) (deps2 h)) in
  trace (useScrollingNavigation first env s)
  = trace s ++ cleanupCalls s
    ++ (if run1 then [setTargetElement (activeElementId p)] else [])
    ++ (if run2 then calls (scroll env (targetElement h) (direction p) (margin p)) else [])
    ++ attachCalls env (fresh s).
Proof.
  cbv zeta. destruct (runCleanup_calls s) as [T F].
  unfold useScrollingNavigation, attachCalls, scrollDepsOf.
  destruct (container env); cbn [trace]; rewrite T, ?F, <- !app_assoc; reflexivity.
Qed.

Lemma pass_fresh first env s :
  fresh (useScrollingNavigation first env s)
  = match container env with Some _ => S (fresh s) | None => fresh s end.
Proof.
  destruct (runCleanup_calls s) as [_ F]. unfold useScrollingNavigation.
  destruct (container env); cbn [fresh]; now rewrite ?F.
Qed.

Lemma pass_listeners first env s :
  registryOk s ->
  listeners (useScrollingNavigation first env s)
  = match container env with
    | Some c => [(container_ref c,
                  mkListener (fresh s) (elementsIds (props (hook s)))
                             (direction (props (hook s))) (windowDimensions env))]
    | None => []
    end.
Proof.
  intros R. destruct (runCleanup_registry s R) as [L _].
  destruct (runCleanup_calls s) as [_ F].
  unfold useScrollingNavigation. rewrite L.
  destruct (container env); cbn [listeners]; now rewrite ?F.
Qed.

Lemma pass_deps2 first env s :
  deps2 (hook (useScrollingNavigation first env s))
  = scrollDepsOf (targetElement (hook s)) (props (hook s)).
Proof.
  destruct (useScrollingNavigation_hook first env s) as (_ & _ & _ & _ & _ & E2).
  cbv zeta in E2. rewrite E2. fold (scrollDepsOf (targetElement (hook s)) (props (hook s))).
  destruct first; [reflexivity|]. cbn [orb].
  destruct (sameScrollDeps _ _) eqn:Q; [|reflexivity].
  cbn [negb]. symmetry. now apply sameScrollDeps_eq.
Qed.

Lemma render_listeners first env s :
  settled s -> mounted (hook s) = true ->
  exists n,
    listeners (render first env s)
    = match container env with
      | Some c => [(container_ref c,
                    mkListener n (elementsIds (props (hook s)))
                               (direction (props (hook s))) (windowDimensions env))]
      | None => []
      end.
Proof.
  intros S M. unfold render. destruct (_ =? _).
  - eexists. apply pass_listeners, S.
  - pose proof (useScrollingNavigation_settled first env s S M) as S1.
    destruct (useScrollingNavigation_hook first env s) as (_ & P1 & _).
    eexists. rewrite (pass_listeners false env _ (proj2 S1)), P1. reflexivity.
Qed.

Lemma render_synced first env s :
  settled s -> mounted (hook s) = true -> synced (render first env s).
Proof.
  intros S M _. pose proof (render_invariant first env s S M) as (_ & D & _).
  revert D. unfold render.
  destruct (_ =? _) eqn:E.
  - intros _. apply String.eqb_eq in E. rewrite pass_deps2, E.
    now rewrite (proj1 (proj2 (useScrollingNavigation_hook first env s))).
  - rewrite pass_deps2. cbn [d_targetElement scrollDepsOf]. intros <-.
    now rewrite (proj1 (proj2 (useScrollingNavigation_hook false env _))).
Qed.

Lemma step_synced e s : invariant s -> synced s -> synced (step e s).
Proof.
  intros I Y. destruct e as [env p|env target|]; cbn [step].
  - destruct (mounted (hook s)) eqn:M; [|exact Y].
    apply render_synced; [exact (proj1 I)|exact M].
  - destruct (mounted (hook s)) eqn:M; [|exact Y].
    destruct (_ =? _); [exact Y|].
    apply render_synced; [exact (proj1 I)|exact M].
  - destruct (mounted (hook s)) eqn:M; [|exact Y]. intros H. discriminate H.
Qed.

Lemma reachable_synced s : reachable s -> synced s.
Proof.
  intros (env & p & es & ->).
  assert (G : forall es s, invariant s -> synced s -> synced (run es s)).
  { clear. induction es as [|e es IH]; intros s I Y; [exact Y|].
    cbn [run]. apply IH; [now apply step_invariant|now apply step_synced]. }
  apply G; [apply mount_invariant|].
  unfold mount. apply render_synced; [split; reflexivity|reflexivity].
Qed.

(** A render with the same [activeElementId]: one pass, in which only the
    dependency list of the scrolling effect decides whether [scroll] runs. *)
Lemma rerender_same_target_trace s env p' :
  reachable s -> mounted (hook s) = true ->
  activeElementId p' = activeElementId (props (hook s)) ->
  let a := activeElementId p' in
  trace (step (Rerender env p') s)
  = trace s ++ cleanupCalls s
    ++ (if sameScrollDeps (scrollDepsOf a p') (scrollDepsOf a (props (hook s)))
        then [] else calls (scroll env a (direction p') (margin p')))
    ++ attachCalls env (fresh s).
Proof.
  intros R M A a.
  pose proof (reachable_invariant s R) as ((D1 & _) & _ & T & _).
  pose proof (reachable_synced s R M) as Y. specialize (T M).
  cbn [step]. rewrite M. unfold render.
  destruct (useScrollingNavigation_hook false env (withProps p' s)) as (_ & _ & _ & T1 & _).
  cbv zeta in T1. cbn [withProps hook props deps1 targetElement orb] in T1.
  assert (X1 : (activeElementId p' =? deps1 (hook s)) = true).
  { apply String.eqb_eq. congruence. }
  rewrite X1 in T1. cbn [negb] in T1.
  rewrite T1. cbn [withProps hook targetElement]. rewrite eqb_string_refl.
  rewrite pass_trace. cbn [withProps hook props deps1 deps2 targetElement trace fresh orb].
  rewrite X1. cbn [negb app]. rewrite Y.
  unfold a. rewrite T, <- A.
  destruct (sameScrollDeps _ _); reflexivity.
Qed.

(** ** Mounting *)

(** X1: mounting renders once.  Its calls are, in order:
    [setTargetElement(activeElementId)], the calls of [scroll] for
    [activeElementId], [getScrollContainer()] and, when that is not null, one
    [addEventListener("scroll")] on the container.  Afterwards the hook
    reports [activeElementId], and the handler registered is the one that
    captured the arguments and window dimensions of this render. *)
Theorem mount_calls (env : Env) (p : Props) :
  trace (mount env p)
  = setTargetElement (activeElementId p)
    :: calls (scroll env (activeElementId p) (direction p) (margin p))
    ++ attachCalls env 0
  /\ returned (mount env p) = activeElementId p
  /\ targetElement (hook (mount env p)) = activeElementId p
  /\ listeners (mount env p)
     = match container env with
       | Some c => [(container_ref c,
                     mkListener 0 (elementsIds p) (direction p) (windowDimensions env))]
       | None => []
       end.
Proof.
  unfold mount, render.
  match goal with |- context [useScrollingNavigation true env ?i] => set (s0 := i) end.
  destruct (useScrollingNavigation_hook true env s0) as (_ & _ & A1 & T1 & _).
  cbv zeta in T1. cbn in T1. rewrite T1. cbn [s0 hook targetElement].
  rewrite eqb_string_refl. fold s0.
  repeat split.
  - now rewrite pass_trace.
  - unfold returned. now rewrite A1.
  - exact T1.
  - now rewrite pass_listeners.
Qed.

(** ** The dependency list of the scrolling effect *)

(** X2: a render of a mounted hook with the same [activeElementId], the
    same [getScrollContainer] function, the same direction and the same
    margin does not run [scroll]: the only calls are the removal of the old
    scroll listener and the registration of a new one, whatever [elementsIds]
    is. *)
Theorem rerender_same_deps_no_scroll (s : State) (env : Env) (p' : Props) :
  reachable s ->
  mounted (hook s) = true ->
  activeElementId p' = activeElementId (props (hook s)) ->
  getScrollContainer p' = getScrollContainer (props (hook s)) ->
  direction p' = direction (props (hook s)) ->
  margin p' = margin (props (hook s)) ->
  trace (step (Rerender env p') s)
  = trace s ++ cleanupCalls s ++ attachCalls env (fresh s)
  /\ count is_scrollTo (trace (step (Rerender env p') s)) = count is_scrollTo (trace s)
  /\ count is_setTargetElement (trace (step (Rerender env p') s))
     = count is_setTargetElement (trace s).
Proof.
  intros R M A G D N.
  assert (E : trace (step (Rerender env p') s)
              = trace s ++ cleanupCalls s ++ attachCalls env (fresh s)).
  { rewrite (rerender_same_target_trace s env p' R M A). cbv zeta.
    assert (Q : scrollDepsOf (activeElementId p') p'
                = scrollDepsOf (activeElementId p') (props (hook s))).
    { unfold scrollDepsOf. congruence. }
    rewrite (proj2 (sameScrollDeps_eq _ _) Q). reflexivity. }
  split; [exact E|]. rewrite E. unfold count, cleanupCalls, attachCalls.
  rewrite !filter_app, !length_app.
  destruct (cleanup (hook s)) as [[c i]|]; destruct (container env); cbn; lia.
Qed.

Lemma rerender_same_deps_no_scroll_witness :
  trace (step (Rerender sampleEnv
                        (arguments 7 ["about"; "contact"] None None None))
              (mount sampleEnv sampleProps))
  = trace (mount sampleEnv sampleProps)
    ++ [removeEventListener 0 "scroll" 0; call_getScrollContainer;
        addEventListener 0 "scroll" 1].
Proof.
  apply (rerender_same_deps_no_scroll
           (mount sampleEnv sampleProps) sampleEnv
           (arguments 7 ["about"; "contact"] None None None)
           sample_reachable); reflexivity.
Defined.

(** X3: a render of a mounted hook with the same [activeElementId] but
    another [getScrollContainer] function (as when the caller passes an inline
    arrow function), another direction or another margin runs [scroll] again
    for the current target, between the removal of the old listener and the
    registration of the new one. *)
Theorem rerender_changed_deps_scrolls_again (s : State) (env : Env) (p' : Props) :
  reachable s ->
  mounted (hook s) = true ->
  activeElementId p' = activeElementId (props (hook s)) ->
  getScrollContainer p' <> getScrollContainer (props (hook s))
  \/ direction p' <> direction (props (hook s))
  \/ margin p' <> margin (props (hook s)) ->
  trace (step (Rerender env p') s)
  = trace s ++ cleanupCalls s
    ++ calls (scroll env (activeElementId p') (direction p') (margin p'))
    ++ attachCalls env (fresh s).
Proof.
  intros R M A C.
  rewrite (rerender_same_target_trace s env p' R M A). cbv zeta.
  destruct (sameScrollDeps _ _) eqn:Q; [|reflexivity].
  apply sameScrollDeps_eq in Q. unfold scrollDepsOf in Q. exfalso.
  inversion Q. destruct C as [C|[C|C]]; now apply C.
Qed.

Lemma rerender_changed_deps_scrolls_again_witness :
  trace (step (Rerender sampleEnv
                        (arguments 8 ["intro"; "about"; "contact"] (Some "contact") None None))
              (mount sampleEnv
                     (arguments 7 ["intro"; "about"; "contact"] (Some "contact") None None)))
  = trace (mount sampleEnv
                 (arguments 7 ["intro"; "about"; "contact"] (Some "contact") None None))
    ++ [removeEventListener 0 "scroll" 0;
        call_getScrollContainer; scrollTo 0 (mkOptions 0 1000 "smooth");
        call_getScrollContainer; addEventListener 0 "scroll" 1].
Proof.
  apply (rerender_changed_deps_scrolls_again
           (mount sampleEnv
                  (arguments 7 ["intro"; "about"; "contact"] (Some "contact") None None))
           sampleEnv
           (arguments 8 ["intro"; "about"; "contact"] (Some "contact") None None)).
  - now exists sampleEnv,
               (arguments 7 ["intro"; "about"; "contact"] (Some "contact") None None), [].
  - reflexivity.
  - reflexivity.
  - left. discriminate.
Defined.

(** ** Counting calls along a run *)

Lemma count_app kind t t' : count kind (t ++ t') = count kind t + count kind t'.
Proof. unfold count. now rewrite filter_app, length_app. Qed.

Lemma reachable_ind (Q : State -> Prop) :
  (forall env p, Q (mount env p)) ->
  (forall e s, invariant s -> synced s -> Q s -> Q (step e s)) ->
  forall s, reachable s -> Q s.
Proof.
  intros Hm Hs s (env & p & es & ->).
  assert (G : forall es s, invariant s -> synced s -> Q s -> Q (run es s)).
  { clear env p es. induction es as [|e es IH]; intros s I Y H; [exact H|].
    cbn [run]. apply IH;
      [now apply step_invariant|now apply step_synced|now apply Hs]. }
  apply G; [apply mount_invariant| |apply Hm].
  apply reachable_synced. now exists env, p, [].
Qed.

(** [scroll] calls [getScrollContainer] and [scrollTo] and nothing else,
    each at most once, and completes normally. *)
Lemma scroll_shape env targetElement direction margin :
  completion (scroll env targetElement direction margin) = Return tt
  /\ (calls (scroll env targetElement direction margin) = []
      \/ calls (scroll env targetElement direction margin) = [call_getScrollContainer]
      \/ exists c o,
           container env = Some c
           /\ calls (scroll env targetElement direction margin)
              = [call_getScrollContainer; scrollTo (container_ref c) o]).
Proof.
  unfold scroll. destruct (targetElement =? ""); [now split; [|left]|].
  destruct (container env) as [[r sx sy|r sl st rect]|];
    destruct (getElementById (document env) targetElement); cbn;
    (split; [reflexivity|]); auto; right; right; eauto.
Qed.

Lemma scroll_count kind env targetElement direction margin :
  kind call_getScrollContainer = false ->
  (forall c o, kind (scrollTo c o) = false) ->
  count kind (calls (scroll env targetElement direction margin)) = 0.
Proof.
  intros K1 K2.
  destruct (scroll_shape env targetElement direction margin)
    as [_ [->|[->|(c & o & _ & ->)]]]; unfold count; cbn; now rewrite ?K1, ?K2.
Qed.

Lemma dispatch_count kind document hs :
  (forall v, kind (setActiveElement v) = false) ->
  count kind (dispatch document hs) = 0.
Proof.
  intros K. induction hs as [|l hs IH]; [reflexivity|].
  cbn [dispatch]. rewrite count_app, IH, determineActiveElement_spec.
  unfold calls; cbn [fst].
  induction (filter _ (l_elementsIds l)) as [|v vs IHv]; [reflexivity|].
  unfold count in *. cbn [map filter]. now rewrite K.
Qed.

Lemma registry_cleanupCalls s :
  registryOk s ->
  count is_removeEventListener (cleanupCalls s) = List.length (listeners s)
  /\ List.length (listeners s) <= 1.
Proof.
  unfold registryOk, cleanupCalls.
  destruct (cleanup (hook s)) as [[c i]|].
  - intros (_ & l & -> & _). cbn. split; [reflexivity|lia].
  - intros ->. cbn. split; [reflexivity|lia].
Qed.

Lemma cleanupCalls_count kind s :
  (forall c l, kind (removeEventListener c "scroll" l) = false) ->
  count kind (cleanupCalls s) = 0.
Proof.
  intros K. unfold cleanupCalls. destruct (cleanup (hook s)) as [[c i]|]; [|reflexivity].
  unfold count. cbn. now rewrite K.
Qed.


(** The calls of a kind made by one render pass. *)
Lemma pass_count kind first env s :
  kind call_getScrollContainer = false ->
  (forall v, kind (setTargetElement v) = false) ->
  count kind (trace (useScrollingNavigation first env s))
  = count kind (trace s) + count kind (cleanupCalls s)
    + (if first || negb (sameScrollDeps (scrollDepsOf (targetElement (hook s)) (props (hook s)))
                                        (deps2 (hook s)))
       then count kind (calls (scroll env (targetElement (hook s))
                                      (direction (props (hook s))) (margin (props (hook s)))))
       else 0)
    + match container env with
      | Some c => count kind [addEventListener (container_ref c) "scroll" (fresh s)]
      | None => 0
      end.
Proof.
  intros K1 K2. rewrite pass_trace. cbv zeta. rewrite !count_app.
  assert (E1 : forall b v, count kind (if b : bool then [setTargetElement v] else []) = 0).
  { intros [] v; unfold count; cbn; now rewrite ?K2. }
  rewrite E1. unfold attachCalls.
  change (call_getScrollContainer :: ?l) with ([call_getScrollContainer] ++ l).
  rewrite count_app.
  assert (E2 : count kind [call_getScrollContainer] = 0).
  { unfold count; cbn; now rewrite K1. }
  rewrite E2.
  destruct (first || _); destruct (container env); cbn [count filter List.length]; lia.
Qed.

Lemma pass_balanced first env s :
  registryOk s ->
  count is_addEventListener (trace s)
  = count is_removeEventListener (trace s) + List.length (listeners s) ->
  count is_addEventListener (trace (useScrollingNavigation first env s))
  = count is_removeEventListener (trace (useScrollingNavigation first env s))
    + List.length (listeners (useScrollingNavigation first env s)).
Proof.
  intros R B.
  rewrite (pass_count is_addEventListener), (pass_count is_removeEventListener);
    try reflexivity.
  rewrite (pass_listeners first env s R).
  rewrite !scroll_count by reflexivity.
  rewrite (cleanupCalls_count is_addEventListener) by reflexivity.
  destruct (registry_cleanupCalls s R) as [-> _].
  destruct (first || _); destruct (container env); cbn; lia.
Qed.

Lemma render_balanced first env s :
  settled s -> mounted (hook s) = true ->
  count is_addEventListener (trace s)
  = count is_removeEventListener (trace s) + List.length (listeners s) ->
  count is_addEventListener (trace (render first env s))
  = count is_removeEventListener (trace (render first env s))
    + List.length (listeners (render first env s)).
Proof.
  intros S M B. unfold render. destruct (_ =? _).
  - apply pass_balanced; [exact (proj2 S)|exact B].
  - apply pass_balanced.
    + exact (proj2 (useScrollingNavigation_settled first env s S M)).
    + apply pass_balanced; [exact (proj2 S)|exact B].
Qed.

(** ** The listener registry *)

(** X4: the hook never leaks a scroll listener.  In every state reached
    from a mount at most one handler of the hook is registered, and every
    [addEventListener] call made so far, other than the one for the handler
    still registered, has been followed by its [removeEventListener]: the
    calls are in balance with the registry. *)
Theorem listeners_balanced (s : State) :
  reachable s ->
  List.length (listeners s) <= 1
  /\ count is_addEventListener (trace s)
     = count is_removeEventListener (trace s) + List.length (listeners s).
Proof.
  intros R. split.
  - exact (proj2 (registry_cleanupCalls s (proj2 (proj1 (reachable_invariant s R))))).
  - revert s R. apply reachable_ind.
    + intros env p. unfold mount. apply render_balanced; [split| |]; reflexivity.
    + intros e s I _ B. destruct e as [env p|env target|]; cbn [step].
      * destruct (mounted (hook s)) eqn:M; [|exact B].
        apply render_balanced; [exact (proj1 I)|exact M|exact B].
      * assert (B' : forall v,
                 let s' := withActiveElement v
                             (dispatch (document env) (handlersOf target (listeners s))) s in
                 count is_addEventListener (trace s')
                 = count is_removeEventListener (trace s') + List.length (listeners s')).
        { intros v. cbn [withActiveElement trace listeners].
          rewrite !count_app, !dispatch_count by reflexivity. lia. }
        destruct (mounted (hook s)) eqn:M; [|apply B'].
        destruct (_ =? _); [apply B'|].
        apply render_balanced; [exact (proj1 I)|exact M|apply B'].
      * destruct (mounted (hook s)) eqn:M; [|exact B].
        destruct (runCleanup_registry s (proj2 (proj1 I))) as [L _].
        destruct (runCleanup_calls s) as [T _].
        destruct (registry_cleanupCalls s (proj2 (proj1 I))) as [C _].
        cbn [unmounted trace listeners]. rewrite L, T, !count_app, C.
        rewrite (cleanupCalls_count is_addEventListener) by reflexivity.
        cbn. lia.
Qed.

Lemma listeners_balanced_witness :
  List.length
    (listeners (run [ScrollEvent sampleEnv 0; Rerender sampleEnv sampleProps]
                    (mount sampleEnv sampleProps))) <= 1
  /\ count is_addEventListener
       (trace (run [ScrollEvent sampleEnv 0; Rerender sampleEnv sampleProps]
                   (mount sampleEnv sampleProps)))
     = count is_removeEventListener
         (trace (run [ScrollEvent sampleEnv 0; Rerender sampleEnv sampleProps]
                     (mount sampleEnv sampleProps)))
       + List.length
           (listeners (run [ScrollEvent sampleEnv 0; Rerender sampleEnv sampleProps]
                           (mount sampleEnv sampleProps))).
Proof.
  apply (listeners_balanced
           (run [ScrollEvent sampleEnv 0; Rerender sampleEnv sampleProps]
                (mount sampleEnv sampleProps))).
  now exists sampleEnv, sampleProps,
             [ScrollEvent sampleEnv 0; Rerender sampleEnv sampleProps].
Defined.

Lemma rerender_listeners s env p' :
  invariant s -> mounted (hook s) = true ->
  exists n,
    listeners (step (Rerender env p') s)
    = match container env with
      | Some c => [(container_ref c,
                    mkListener n (elementsIds p') (direction p') (windowDimensions env))]
      | None => []
      end.
Proof.
  intros I M. cbn [step]. rewrite M.
  apply (render_listeners false env (withProps p' s)); [exact (proj1 I)|exact M].
Qed.

Lemma rerender_returned s env p' : returned (step (Rerender env p') s) = returned s.
Proof.
  cbn [step]. destruct (mounted (hook s)); [|reflexivity].
  unfold returned. now rewrite (proj1 (render_activeElement false env (withProps p' s))).
Qed.

(** X5: the scroll handler is never stale.  After a render with new
    arguments, a scroll event on the container is judged with the
    [elementsIds] and the direction of that render and with the window
    dimensions the hook had at that render, on the document as it is when the
    event fires. *)
Theorem handler_sees_latest_arguments (s : State) (env env' : Env) (p' : Props)
    (c : Container) :
  reachable s ->
  mounted (hook s) = true ->
  container env = Some c ->
  returned (step (ScrollEvent env' (container_ref c)) (step (Rerender env p') s))
  = last (filter (matches (document env') (direction p') (windowDimensions env))
                 (elementsIds p'))
         (returned s).
Proof.
  intros R M C. pose proof (reachable_invariant s R) as I.
  destruct (rerender_listeners s env p' I M) as [n L]. rewrite C in L.
  rewrite (scrollEvent_returned _ env' (container_ref c)
             (mkListener n (elementsIds p') (direction p') (windowDimensions env))).
  - cbn [l_elementsIds l_direction l_windowDimensions].
    now rewrite afterScroll_last, rerender_returned.
  - now apply step_invariant.
  - rewrite L. now left.
Qed.

Lemma handler_sees_latest_arguments_witness :
  returned (step (ScrollEvent sampleEnv 0)
                 (step (Rerender sampleEnv (arguments 7 ["intro"; "contact"] None None None))
                       (mount sampleEnv sampleProps)))
  = "intro".
Proof.
  apply (handler_sees_latest_arguments
           (mount sampleEnv sampleProps) sampleEnv sampleEnv
           (arguments 7 ["intro"; "contact"] None None None) sampleWindow
           sample_reachable); reflexivity.
Defined.

(** X6: when [getScrollContainer()] returns null during a render, the
    listener effect returns without registering anything (lines 70-72): the
    previous listener is gone, none is registered, and until the hook renders
    again no scroll event, on any object, has any effect. *)
Theorem null_container_no_tracking (s : State) (env : Env) (p' : Props) :
  reachable s ->
  mounted (hook s) = true ->
  container env = None ->
  let s' := step (Rerender env p') s in
  listeners s' = []
  /\ forall scrolls,
       Forall (fun e => exists env' target, e = ScrollEvent env' target) scrolls ->
       run scrolls s' = s'.
Proof.
  intros R M C s'. pose proof (reachable_invariant s R) as I.
  destruct (rerender_listeners s env p' I M) as [n L]. rewrite C in L. fold s' in L.
  split; [exact L|].
  induction scrolls as [|e es IH]; intros F; [reflexivity|].
  inversion F as [|e0 es0 (env' & target & ->) F']; subst.
  cbn [run]. rewrite scrollEvent_idle; [now apply IH|].
  now rewrite L.
Qed.

Lemma null_container_no_tracking_witness :
  listeners (step (Rerender (mkEnv sampleDocument None (mkDimensions 1000 800)) sampleProps)
                  (mount sampleEnv sampleProps)) = []
  /\ forall scrolls,
       Forall (fun e => exists env' target, e = ScrollEvent env' target) scrolls ->
       run scrolls
           (step (Rerender (mkEnv sampleDocument None (mkDimensions 1000 800)) sampleProps)
                 (mount sampleEnv sampleProps))
       = step (Rerender (mkEnv sampleDocument None (mkDimensions 1000 800)) sampleProps)
              (mount sampleEnv sampleProps).
Proof.
  apply (null_container_no_tracking
           (mount sampleEnv sampleProps)
           (mkEnv sampleDocument None (mkDimensions 1000 800)) sampleProps
           sample_reachable); reflexivity.
Defined.

Lemma last_filter {A} (f : A -> bool) (l : list A) (d : A) :
  last (filter f l) d = d
  \/ (In (last (filter f l) d) l /\ f (last (filter f l) d) = true).
Proof.
  destruct (filter f l) as [|a fl] eqn:E; [now left|]. right.
  assert (H : In (last (a :: fl) d) (filter f l)).
  { rewrite E. destruct (exists_last (l := a :: fl)) as (l' & z & ->); [discriminate|].
    rewrite last_last. apply in_or_app. right. now left. }
  now apply filter_In in H.
Qed.

Lemma last_filter_idem {A} (f : A -> bool) (l : list A) (d : A) :
  last (filter f l) (last (filter f l) d) = last (filter f l) d.
Proof.
  destruct (filter f l) as [|a fl]; [reflexivity|].
  destruct (exists_last (l := a :: fl)) as (l' & z & ->); [discriminate|].
  now rewrite !last_last.
Qed.

(** After a scroll event the hook reports what it reported before or an ID
    of [elementsIds] that matched. *)
Lemma scrollEvent_cases s env target :
  invariant s ->
  returned (step (ScrollEvent env target) s) = returned s
  \/ exists c l,
       In (c, l) (listeners s)
       /\ In (returned (step (ScrollEvent env target) s)) (elementsIds (props (hook s)))
       /\ matches (document env) (direction (props (hook s))) (l_windowDimensions l)
                  (returned (step (ScrollEvent env target) s)) = true.
Proof.
  intros I. destruct (listeners s) as [|[c l] ls] eqn:L.
  - left. rewrite scrollEvent_idle; [reflexivity|now rewrite L].
  - assert (H : In (c, l) (listeners s)) by (rewrite L; now left).
    destruct (invariant_single_listener s c l I H) as (L1 & _).
    destruct (Nat.eqb c target) eqn:E.
    + apply Nat.eqb_eq in E. subst target.
      rewrite (scrollEvent_returned s env c l I H), afterScroll_last.
      destruct I as (_ & _ & _ & K). destruct (K c l H) as [-> ->].
      destruct (last_filter (matches (document env) (direction (props (hook s)))
                                     (l_windowDimensions l))
                            (elementsIds (props (hook s))) (returned s)) as [Q|[Q1 Q2]].
      * now left.
      * right. exists c, l. rewrite <- L. auto.
    + left. rewrite scrollEvent_idle; [reflexivity|].
      rewrite L1. unfold handlersOf. cbn [filter fst]. now rewrite E.
Qed.

(** ** What the hook reports *)

(** X7: a scroll event never makes the hook report an arbitrary ID.  The
    reported value is either unchanged, or it is a non-empty member of
    [elementsIds] whose element exists in the document and is over the
    visibility threshold of the direction, for the window dimensions the
    registered handler captured. *)
Theorem scroll_event_sound (s : State) (env : Env) (target : nat) :
  reachable s ->
  let v := returned (step (ScrollEvent env target) s) in
  v = returned s
  \/ (In v (elementsIds (props (hook s)))
      /\ v <> ""
      /\ exists c l section,
           In (c, l) (listeners s)
           /\ getElementById (document env) v = Some section
           /\ inView (direction (props (hook s))) (l_windowDimensions l)
                     (Element.getBoundingClientRect section) = true).
Proof.
  intros R v. destruct (scrollEvent_cases s env target (reachable_invariant s R))
    as [E|(c & l & H & HI & HM)]; [now left|right].
  fold v in HI, HM. apply matches_iff in HM as (section & G & V).
  split; [exact HI|]. split; [now apply getElementById_nonempty in G|].
  now exists c, l, section.
Qed.

Lemma scroll_event_sound_witness :
  let v := returned (step (ScrollEvent sampleEnv 0) (mount sampleEnv sampleProps)) in
  v = returned (mount sampleEnv sampleProps)
  \/ (In v (elementsIds (props (hook (mount sampleEnv sampleProps))))
      /\ v <> ""
      /\ exists c l section,
           In (c, l) (listeners (mount sampleEnv sampleProps))
           /\ getElementById (document sampleEnv) v = Some section
           /\ inView (direction (props (hook (mount sampleEnv sampleProps))))
                     (l_windowDimensions l)
                     (Element.getBoundingClientRect section) = true).
Proof.
  exact (scroll_event_sound (mount sampleEnv sampleProps) sampleEnv 0 sample_reachable).
Defined.

(** X8: over the whole life of the hook the reported value is the
    [activeElementId] it was mounted with or one of the candidate IDs it was
    given: if [elementsIds] stays within a list [ids] at the mount and at every
    later render, the value returned after any sequence of events is the
    initial [activeElementId] or a member of [ids]. *)
Theorem reported_is_initial_or_candidate (env : Env) (p : Props) (es : list Event)
    (ids : list string) :
  incl (elementsIds p) ids ->
  Forall (candidatesWithin ids) es ->
  returned (run es (mount env p)) = activeElementId p
  \/ In (returned (run es (mount env p))) ids.
Proof.
  intros HP HE.
  assert (G : forall es s,
             invariant s -> incl (elementsIds (props (hook s))) ids ->
             (returned s = activeElementId p \/ In (returned s) ids) ->
             Forall (candidatesWithin ids) es ->
             returned (run es s) = activeElementId p \/ In (returned (run es s)) ids).
  { clear es HE. induction es as [|e es IH]; intros s I C V F; [exact V|].
    inversion F as [|e0 es0 Fe F']; subst. cbn [run].
    apply IH; [now apply step_invariant| | |exact F'].
    - destruct e as [env1 p1|env1 target|]; cbn [step].
      + destruct (mounted (hook s)); [|exact C].
        now rewrite (proj2 (proj2 (render_activeElement false env1 (withProps p1 s)))).
      + destruct (mounted (hook s)); [|exact C].
        destruct (_ =? _); [exact C|].
        now rewrite (proj2 (proj2 (render_activeElement false env1 _))).
      + destruct (mounted (hook s)); [|exact C].
        unfold unmounted, runCleanup. now destruct (cleanup (hook s)) as [[c i]|].
    - destruct e as [env1 p1|env1 target|].
      + now rewrite rerender_returned.
      + destruct (scrollEvent_cases s env1 target I) as [->|(c & l & _ & HI & _)];
          [exact V|right; now apply C].
      + cbn [step]. destruct (mounted (hook s)); [|exact V].
        unfold returned, unmounted, runCleanup in *.
        now destruct (cleanup (hook s)) as [[c i]|]. }
  apply G; [apply mount_invariant| | |exact HE].
  - unfold mount. now rewrite (proj2 (proj2 (render_activeElement true env _))).
  - left. unfold mount, returned. now rewrite (proj1 (render_activeElement true env _)).
Qed.

Lemma reported_is_initial_or_candidate_witness :
  returned (run [ScrollEvent sampleEnv 0;
                 Rerender sampleEnv (arguments 7 ["about"; "contact"] None None None);
                 ScrollEvent sampleEnv 0]
                (mount sampleEnv sampleProps)) = activeElementId sampleProps
  \/ In (returned (run [ScrollEvent sampleEnv 0;
                        Rerender sampleEnv (arguments 7 ["about"; "contact"] None None None);
                        ScrollEvent sampleEnv 0]
                       (mount sampleEnv sampleProps)))
        ["intro"; "about"; "contact"].
Proof.
  apply (reported_is_initial_or_candidate sampleEnv sampleProps
           [ScrollEvent sampleEnv 0;
            Rerender sampleEnv (arguments 7 ["about"; "contact"] None None None);
            ScrollEvent sampleEnv 0]
           ["intro"; "about"; "contact"]).
  - intros v H. exact H.
  - apply Forall_cons; [exact I|].
    apply Forall_cons; [|apply Forall_cons; [exact I|apply Forall_nil]].
    intros v H. cbn in H. cbn. tauto.
Defined.

Lemma scrollEvent_dichotomy s env target :
  invariant s ->
  step (ScrollEvent env target) s = s \/ exists l, listeners s = [(target, l)].
Proof.
  intros I. destruct (listeners s) as [|[c l] ls] eqn:L.
  - left. apply scrollEvent_idle. now rewrite L.
  - assert (H : In (c, l) (listeners s)) by (rewrite L; now left).
    destruct (invariant_single_listener s c l I H) as (L1 & _).
    rewrite L in L1. inversion L1; subst ls.
    destruct (Nat.eqb c target) eqn:E.
    + apply Nat.eqb_eq in E. subst. right. now exists l.
    + left. apply scrollEvent_idle. rewrite L. unfold handlersOf.
      cbn [filter fst]. now rewrite E.
Qed.

(** X9: scroll events are idempotent on an unchanged page.  When the
    window dimensions have not changed since the handler was created, a second
    scroll event on the same container with the same document reports what the
    first one reported. *)
Theorem scroll_event_idempotent (s : State) (env : Env) (c : nat) (l : Listener) :
  reachable s ->
  In (c, l) (listeners s) ->
  l_windowDimensions l = windowDimensions env ->
  returned (step (ScrollEvent env c) (step (ScrollEvent env c) s))
  = returned (step (ScrollEvent env c) s).
Proof.
  intros R H W. pose proof (reachable_invariant s R) as I.
  pose proof (step_invariant (ScrollEvent env c) s I) as I1.
  destruct (invariant_single_listener s c l I H) as (L & _ & M).
  pose proof (scrollEvent_returned s env c l I H) as E1.
  rewrite afterScroll_last in E1.
  destruct (scrollEvent_dichotomy (step (ScrollEvent env c) s) env c I1) as [->|[l' L']];
    [reflexivity|].
  rewrite (scrollEvent_returned _ env c l' I1) by (rewrite L'; now left).
  rewrite afterScroll_last.
  assert (Q : l_elementsIds l' = l_elementsIds l /\ l_direction l' = l_direction l
              /\ l_windowDimensions l' = l_windowDimensions l).
  { revert L'. cbn [step]. rewrite M.
    destruct (_ =? _).
    - cbn [withActiveElement listeners]. rewrite L. intros Q. now inversion Q.
    - match goal with |- context [render false env ?s0] => set (s' := s0) end.
      destruct (render_listeners false env s' (proj1 I) M) as [n ->].
      destruct (proj2 (proj2 (proj2 I)) c l H) as [K1 K2].
      destruct (container env); intros Q; inversion Q; subst; cbn.
      now rewrite K1, K2, W. }
  destruct Q as (-> & -> & ->). rewrite E1. apply last_filter_idem.
Qed.

Lemma scroll_event_idempotent_witness :
  returned (step (ScrollEvent sampleEnv 0)
                 (step (ScrollEvent sampleEnv 0) (mount sampleEnv sampleProps)))
  = returned (step (ScrollEvent sampleEnv 0) (mount sampleEnv sampleProps)).
Proof.
  apply (scroll_event_idempotent
           (mount sampleEnv sampleProps) sampleEnv 0
           (mkListener 0 ["intro"; "about"; "contact"] ScrollDirection.y
                       (mkDimensions 1000 800))
           sample_reachable).
  - left. reflexivity.
  - reflexivity.
Defined.

Lemma render_count_quiet kind first env s :
  kind call_getScrollContainer = false ->
  (forall v, kind (setTargetElement v) = false) ->
  (forall c o, kind (scrollTo c o) = false) ->
  (forall c l, kind (addEventListener c "scroll" l) = false) ->
  (forall c l, kind (removeEventListener c "scroll" l) = false) ->
  count kind (trace (render first env s)) = count kind (trace s).
Proof.
  intros K1 K2 K3 K4 K5.
  assert (P : forall f s0,
             count kind (trace (useScrollingNavigation f env s0)) = count kind (trace s0)).
  { intros f s0. rewrite pass_count by assumption.
    rewrite cleanupCalls_count, scroll_count by assumption.
    assert (A : forall c n, count kind [addEventListener c "scroll" n] = 0).
    { intros c n. unfold count. cbn. now rewrite K4. }
    destruct (f || _); destruct (container env); rewrite ?A; lia. }
  unfold render. destruct (_ =? _); now rewrite !P.
Qed.

(** ** Errors *)

(** X10: the hook never logs.  The only [console.error] of the file is in
    the last branch of [getScroll], and [scroll] passes it a container of type
    [HTMLElement | Window] only: no state reached from a mount has a
    [console.error] call in its trace. *)
Theorem hook_never_logs (s : State) :
  reachable s -> count is_console_error (trace s) = 0.
Proof.
  revert s. apply reachable_ind.
  - intros env p. unfold mount. now rewrite render_count_quiet.
  - intros e s _ _ Z. destruct e as [env p|env target|]; cbn [step].
    + destruct (mounted (hook s)); [|exact Z]. now rewrite render_count_quiet.
    + assert (Z' : forall v,
                 count is_console_error
                   (trace (withActiveElement v
                             (dispatch (document env) (handlersOf target (listeners s))) s))
                 = 0).
      { intros v. cbn [withActiveElement trace].
        now rewrite count_app, dispatch_count, Z. }
      destruct (mounted (hook s)); [|apply Z'].
      destruct (_ =? _); [apply Z'|]. now rewrite render_count_quiet.
    + destruct (mounted (hook s)); [|exact Z].
      cbn [unmounted trace]. rewrite (proj1 (runCleanup_calls s)), count_app, Z.
      now rewrite cleanupCalls_count.
Qed.

Lemma hook_never_logs_witness :
  count is_console_error
    (trace (run [Rerender sampleEnv (arguments 8 ["about"] (Some "about") None None);
                 ScrollEvent sampleEnv 0; Unmount]
                (mount sampleEnv sampleProps))) = 0.
Proof.
  apply (hook_never_logs
           (run [Rerender sampleEnv (arguments 8 ["about"] (Some "about") None None);
                 ScrollEvent sampleEnv 0; Unmount]
                (mount sampleEnv sampleProps))).
  now exists sampleEnv, sampleProps,
             [Rerender sampleEnv (arguments 8 ["about"] (Some "about") None None);
              ScrollEvent sampleEnv 0; Unmount].
Defined.


(** ** When the hook scrolls *)



Lemma pass_empty_target first env s :
  targetElement (hook s) = "" -> activeElementId (props (hook s)) = "" ->
  count is_scrollTo (trace (useScrollingNavigation first env s))
  = count is_scrollTo (trace s)
  /\ targetElement (hook (useScrollingNavigation first env s)) = ""
  /\ props (hook (useScrollingNavigation first env s)) = props (hook s).
Proof.
  intros T A.
  destruct (useScrollingNavigation_hook first env s) as (_ & P1 & _ & T1 & _).
  cbv zeta in T1. rewrite T, A in T1.
  split; [|split; [|exact P1]].
  - assert (S0 : forall d m, calls (scroll env "" d m) = []) by reflexivity.
    rewrite pass_count by reflexivity.
    rewrite cleanupCalls_count by reflexivity. rewrite T, S0.
    match goal with |- context [if ?b then _ else _] => destruct b end;
      destruct (container env); unfold count; cbn; lia.
  - rewrite T1. now destruct (first || _).
Qed.

Lemma render_empty_target first env s :
  targetElement (hook s) = "" -> activeElementId (props (hook s)) = "" ->
  count is_scrollTo (trace (render first env s)) = count is_scrollTo (trace s)
  /\ targetElement (hook (render first env s)) = ""
  /\ props (hook (render first env s)) = props (hook s).
Proof.
  intros T A. unfold render.
  destruct (pass_empty_target first env s T A) as (C1 & T1 & P1).
  destruct (_ =? _); [now repeat split|].
  destruct (pass_empty_target false env (useScrollingNavigation first env s) T1)
    as (C2 & T2 & P2); [congruence|].
  repeat split; congruence.
Qed.

(** X12: as long as [activeElementId] is the empty string, the value it
    has when the argument is omitted, the hook never calls [scrollTo]:
    not when it mounts, not when it renders again with other candidates,
    another direction, margin or [getScrollContainer], and not on scroll
    events. *)
Theorem empty_target_never_scrolls (env : Env) (p : Props) (es : list Event) :
  activeElementId p = "" ->
  Forall (keepsActiveElementId "") es ->
  count is_scrollTo (trace (run es (mount env p))) = 0.
Proof.
  intros A F.
  assert (G : forall es s,
             targetElement (hook s) = "" -> activeElementId (props (hook s)) = "" ->
             count is_scrollTo (trace s) = 0 ->
             Forall (keepsActiveElementId "") es ->
             count is_scrollTo (trace (run es s)) = 0).
  { clear. induction es as [|e es IH]; intros s T A Z F; [exact Z|].
    inversion F as [|e0 es0 Fe F']; subst. cbn [run].
    assert (Q : targetElement (hook (step e s)) = ""
                /\ activeElementId (props (hook (step e s))) = ""
                /\ count is_scrollTo (trace (step e s)) = 0);
      [|destruct Q as (Q1 & Q2 & Q3); now apply IH].
    destruct e as [env p|env target|]; cbn [step].
    - destruct (mounted (hook s)); [|now repeat split].
      destruct (render_empty_target false env (withProps p s) T Fe) as (C1 & T1 & P1).
      rewrite C1, T1, P1. now repeat split.
    - set (queue := dispatch (document env) (handlersOf target (listeners s))).
      assert (Z' : forall v, count is_scrollTo (trace (withActiveElement v queue s)) = 0).
      { intros v. cbn [withActiveElement trace]. unfold queue.
        now rewrite count_app, dispatch_count, Z. }
      destruct (mounted (hook s)); [|now repeat split].
      destruct (_ =? _); [now repeat split|].
      match goal with |- context [render false env ?s0] =>
        destruct (render_empty_target false env s0 T A) as (C1 & T1 & P1) end.
      rewrite C1, T1, P1. now repeat split.
    - destruct (mounted (hook s)); [|now repeat split].
      cbn [unmounted trace hook targetElement props].
      rewrite (proj1 (runCleanup_calls s)), count_app, Z, cleanupCalls_count by reflexivity.
      unfold runCleanup. destruct (cleanup (hook s)) as [[c i]|]; now repeat split. }
  apply G; [| | |exact F].
  - unfold mount. now apply render_empty_target.
  - unfold mount.
    match goal with |- context [render true env ?s0] =>
      destruct (render_empty_target true env s0 A A) as (_ & _ & P1) end.
    now rewrite P1.
  - unfold mount.
    match goal with |- context [render true env ?s0] =>
      destruct (render_empty_target true env s0 A A) as (C1 & _) end.
    now rewrite C1.
Qed.

Lemma empty_target_never_scrolls_witness :
  count is_scrollTo
    (trace (run [Rerender sampleEnv (arguments 8 ["about"] None (Some ScrollDirection.x)
                                               (Some 10%float));
                 ScrollEvent sampleEnv 0]
                (mount sampleEnv sampleProps))) = 0.
Proof.
  apply (empty_target_never_scrolls sampleEnv sampleProps
           [Rerender sampleEnv (arguments 8 ["about"] None (Some ScrollDirection.x)
                                          (Some 10%float));
            ScrollEvent sampleEnv 0]).
  - reflexivity.
  - apply Forall_cons; [reflexivity|]. apply Forall_cons; [exact I|apply Forall_nil].
Defined.

Lemma pass_cleanupCalls first env s :
  cleanupCalls (useScrollingNavigation first env s) = detachCalls env (fresh s).
Proof.
  destruct (runCleanup_calls s) as [_ F].
  unfold cleanupCalls, detachCalls, useScrollingNavigation.
  destruct (container env); cbn [hook cleanup]; now rewrite ?F.
Qed.

(** X13: what a render with another [activeElementId] does, call by call.
    The first pass removes the listener, calls [setTargetElement] with the new
    ID, and registers a new listener; when [getScrollContainer], the direction
    or the margin changed in the same render, its scrolling effect runs too,
    and it scrolls to the old target, the one this pass was rendered with.
    The state change then causes a second pass, which replaces the listener
    again and scrolls to the new target. *)
Theorem target_change_calls (s : State) (env : Env) (p' : Props) :
  reachable s ->
  mounted (hook s) = true ->
  activeElementId p' <> activeElementId (props (hook s)) ->
  let old := activeElementId (props (hook s)) in
  trace (step (Rerender env p') s)
  = trace s ++ cleanupCalls s
    ++ setTargetElement (activeElementId p')
       :: (if sameScrollDeps (scrollDepsOf old p') (scrollDepsOf old (props (hook s)))
           then []
           else calls (scroll env old (direction p') (margin p')))
    ++ attachCalls env (fresh s)
    ++ detachCalls env (fresh s)
    ++ calls (scroll env (activeElementId p') (direction p') (margin p'))
    ++ attachCalls env (nextFresh env (fresh s)).
Proof.
  intros R M NE old.
  pose proof (reachable_invariant s R) as ((D1 & _) & _ & T & _).
  pose proof (reachable_synced s R M) as Y. specialize (T M).
  cbn [step]. rewrite M. unfold render. set (s0 := withProps p' s).
  destruct (useScrollingNavigation_hook false env s0) as (_ & P1 & _ & T1 & E1 & _).
  cbv zeta in T1, E1. cbn [s0 withProps hook props deps1 targetElement orb] in T1, E1, P1.
  assert (X1 : (activeElementId p' =? deps1 (hook s)) = false).
  { apply String.eqb_neq. congruence. }
  rewrite X1 in T1, E1. cbn [negb] in T1, E1.
  assert (X2 : (targetElement (hook (useScrollingNavigation false env s0))
                =? targetElement (hook s0)) = false).
  { rewrite T1. apply String.eqb_neq. cbn [s0 withProps hook targetElement]. congruence. }
  rewrite X2.
  rewrite (pass_trace false env (useScrollingNavigation false env s0)).
  cbv zeta. rewrite pass_cleanupCalls, pass_fresh, pass_deps2, P1, E1, T1.
  rewrite eqb_string_refl. cbn [orb negb app].
  assert (X3 : sameScrollDeps (scrollDepsOf (activeElementId p') p')
                              (scrollDepsOf (targetElement (hook s0)) (props (hook s0)))
               = false).
  { destruct (sameScrollDeps _ _) eqn:Q; [|reflexivity].
    apply sameScrollDeps_eq in Q. unfold scrollDepsOf in Q. inversion Q as [Q1].
    cbn [s0 withProps hook targetElement] in Q1. congruence. }
  rewrite X3. cbn [negb].
  rewrite (pass_trace false env s0). cbv zeta.
  cbn [s0 withProps hook props deps1 deps2 targetElement trace fresh orb].
  rewrite X1, Y, T. cbn [negb]. fold old. unfold nextFresh.
  change (cleanupCalls s0) with (cleanupCalls s).
  destruct (sameScrollDeps (scrollDepsOf old p') (scrollDepsOf old (props (hook s))));
    cbn [negb app]; rewrite <- ?app_assoc; cbn [app]; rewrite <- ?app_assoc; reflexivity.
Qed.

Lemma target_change_calls_witness :
  trace (step (Rerender sampleEnv
                        (arguments 8 ["intro"; "about"; "contact"] (Some "contact") None None))
              (mount sampleEnv
                     (arguments 7 ["intro"; "about"; "contact"] (Some "about") None None)))
  = trace (mount sampleEnv
                 (arguments 7 ["intro"; "about"; "contact"] (Some "about") None None))
    ++ [removeEventListener 0 "scroll" 0;
        setTargetElement "contact";
        call_getScrollContainer; scrollTo 0 (mkOptions 0 500 "smooth");
        call_getScrollContainer; addEventListener 0 "scroll" 1;
        removeEventListener 0 "scroll" 1;
        call_getScrollContainer; scrollTo 0 (mkOptions 0 1000 "smooth");
        call_getScrollContainer; addEventListener 0 "scroll" 2].
Proof.
  apply (target_change_calls
           (mount sampleEnv
                  (arguments 7 ["intro"; "about"; "contact"] (Some "about") None None))
           sampleEnv
           (arguments 8 ["intro"; "about"; "contact"] (Some "contact") None None)).
  - now exists sampleEnv,
               (arguments 7 ["intro"; "about"; "contact"] (Some "about") None None), [].
  - reflexivity.
  - discriminate.
Defined.
